(** * The import worker (worker/src/index.ts): control loop, stalled-job
      recovery, error taxonomy and process lifecycle.

    The TypeScript module is embedded function by function.  Asynchronous
    functions become computations that return the list of effects they
    perform (store calls, calls to [processJob], log lines, sleeps) together
    with their completion: a value, or the value thrown.  What the outside
    world answers (the store, [processJob], the clock) is an explicit
    argument.  Durations and timestamps are integers, in milliseconds. *)

From stdpp Require Import base list strings gmap.
From Stdlib Require Import ZArith Ascii String Lia.
From Stdlib Require DecimalString DecimalPos DecimalZ.

Local Open Scope Z_scope.

(** ** Configuration (lines 9-51) *)

Record WorkerConfig := {
  id : string;
  pollingInterval : Z;
  stalledJobTimeout : Z;
  circuitBreakerResetTimeout : Z;
  retryDelay : Z
}.

Definition DEFAULT_CONFIG : WorkerConfig := {|
  id := "worker1";
  pollingInterval := 15000;
  stalledJobTimeout := 60000;
  circuitBreakerResetTimeout := 15000;
  retryDelay := 15000
|}.

(** *** JavaScript's [parseInt(string)] with no radix

    Strings are sequences of 8-bit code units (white space above U+00FF is
    outside the model).  The result is [None] for NaN and an exact integer
    otherwise: the rounding of the Number type above 2^53 is not
    represented, and it does not change whether a result is falsy. *)
Module JS.

Definition isWhiteSpace (c : ascii) : bool :=
  let n := nat_of_ascii c in
  ((9 <=? n)%nat && (n <=? 13)%nat) || (n =? 32)%nat || (n =? 160)%nat.

Fixpoint trimStart (s : string) : string :=
  match s with
  | String c s' => if isWhiteSpace c then trimStart s' else s
  | EmptyString => s
  end.

(** The value of [c] as a digit in the given radix (10 or 16). *)
Definition digitValue (radix : Z) (c : ascii) : option Z :=
  let n := Z.of_nat (nat_of_ascii c) in
  let v :=
    if (48 <=? n) && (n <=? 57) then Some (n - 48)
    else if (97 <=? n) && (n <=? 122) then Some (n - 97 + 10)
    else if (65 <=? n) && (n <=? 90) then Some (n - 65 + 10)
    else None in
  match v with
  | Some d => if d <? radix then Some d else None
  | None => None
  end.

(** The longest prefix of digits, read in the radix; [acc] is [None] until a
    digit has been seen. *)
Fixpoint parseDigits (radix : Z) (s : string) (acc : option Z) : option Z :=
  match s with
  | String c s' =>
      match digitValue radix c with
      | Some d =>
          parseDigits radix s'
            (Some (match acc with Some a => a * radix + d | None => d end))
      | None => acc
      end
  | EmptyString => acc
  end.

Definition stripSign (s : string) : Z * string :=
  match s with
  | String "-" s' => (-1, s')
  | String "+" s' => (1, s')
  | _ => (1, s)
  end.

Definition stripHexPrefix (s : string) : Z * string :=
  match s with
  | String "0" (String "x" s') => (16, s')
  | String "0" (String "X" s') => (16, s')
  | _ => (10, s)
  end.

Definition parseInt (input : string) : option Z :=
  let '(sign, s1) := stripSign (trimStart input) in
  let '(radix, s2) := stripHexPrefix s1 in
  match parseDigits radix s2 None with
  | Some mathInt => Some (sign * mathInt)
  | None => None
  end.

(** [a || b] on a number: NaN and 0 are falsy. *)
Definition orNumber (a : option Z) (b : Z) : Z :=
  match a with
  | Some n => if n =? 0 then b else n
  | None => b
  end.

(** [a || b] on a possibly undefined string: undefined and the empty string
    are falsy. *)
Definition orString (a : option string) (b : string) : string :=
  match a with
  | Some EmptyString => b
  | Some s => s
  | None => b
  end.

(** [!a] on a possibly undefined string. *)
Definition notString (a : option string) : bool :=
  match a with
  | Some EmptyString => true
  | Some _ => false
  | None => true
  end.

End JS.

(** [process.env] *)
Abbreviation Env := (gmap string string).

Definition WORKER_CONFIG (env : Env) : WorkerConfig := {|
  id := JS.orString (env !! "WORKER_ID") (id DEFAULT_CONFIG);
  pollingInterval :=
    JS.orNumber (JS.parseInt (JS.orString (env !! "POLLING_INTERVAL") ""))
      (pollingInterval DEFAULT_CONFIG);
  stalledJobTimeout :=
    JS.orNumber (JS.parseInt (JS.orString (env !! "STALLED_JOB_TIMEOUT") ""))
      (stalledJobTimeout DEFAULT_CONFIG);
  circuitBreakerResetTimeout :=
    JS.orNumber
      (JS.parseInt (JS.orString (env !! "CIRCUIT_BREAKER_RESET_TIMEOUT") ""))
      (circuitBreakerResetTimeout DEFAULT_CONFIG);
  retryDelay :=
    JS.orNumber (JS.parseInt (JS.orString (env !! "RETRY_DELAY") ""))
      (retryDelay DEFAULT_CONFIG)
|}.

(** ** Jobs and the error taxonomy (lines 53-87) *)

Inductive JobStatus := pending | processing | completed | failed.

Definition JobStatus_eqb (a b : JobStatus) : bool :=
  match a, b with
  | pending, pending | processing, processing
  | completed, completed | failed, failed => true
  | _, _ => false
  end.

(** A row of the [import_jobs] table; timestamps in milliseconds. *)
Module Job.
Record t := {
  id : string;
  status : JobStatus;
  created_at : Z;
  updated_at : Z;
  worker_id : option string
}.
End Job.

(** What a [catch] clause can receive: an instance of one of the five
    classes of the module, or any other value (a [TypeError] of the HTTP
    client, a string, ...).  The [code] of the four subclasses is fixed by
    their constructors. *)
Inductive Thrown :=
  | WorkerError (message code : string)
  | SupabaseError (message originalError : string)
  | CircuitBreakerError (message : string)
  | JobProcessingError (message jobId : string)
  | StalledJobError (message jobId : string)
  | Foreign (description : string).

Inductive ErrorClass :=
  | WorkerErrorClass | SupabaseErrorClass | CircuitBreakerErrorClass
  | JobProcessingErrorClass | StalledJobErrorClass.

(** [error instanceof C]: every class extends [WorkerError] directly. *)
Definition instanceof (error : Thrown) (C : ErrorClass) : bool :=
  match error, C with
  | Foreign _, _ => false
  | _, WorkerErrorClass => true
  | SupabaseError _ _, SupabaseErrorClass => true
  | CircuitBreakerError _, CircuitBreakerErrorClass => true
  | JobProcessingError _ _, JobProcessingErrorClass => true
  | StalledJobError _ _, StalledJobErrorClass => true
  | _, _ => false
  end.

Definition code (error : Thrown) : option string :=
  match error with
  | WorkerError _ c => Some c
  | SupabaseError _ _ => Some "SUPABASE_ERROR"
  | CircuitBreakerError _ => Some "CIRCUIT_BREAKER_ERROR"
  | JobProcessingError _ _ => Some "JOB_PROCESSING_ERROR"
  | StalledJobError _ _ => Some "STALLED_JOB_ERROR"
  | Foreign _ => None
  end.

(** ** Effects and asynchronous computations *)

Inductive ProcessEvent := SIGTERM | SIGINT | uncaughtException | unhandledRejection.

(** The lines written by [console.log] and [console.error], by source line. *)
Inductive LogLine :=
  | MissingEnvironment (hasUrl hasKey : bool)            (* 13 *)
  | RecoveringStalledJob (jobId : string)                (* 110 *)
  | ErrorRecoveringStalledJobs (error : Thrown)          (* 114 *)
  | ErrorCheckingForPendingJobs (error : Thrown)         (* 139 *)
  | SafeCallSupabaseError (message originalError : string) (* 151 *)
  | SafeCallUnexpectedError (error : Thrown)             (* 154 *)
  | StartingImportWorker                                 (* 171 *)
  | Configuration (config : WorkerConfig)                (* 172 *)
  | ErrorCheckingStalledJobs (error : Thrown)            (* 180 *)
  | CircuitBreakerTriggered                              (* 194 *)
  | JobProcessingErrorFor (jobId message : string)       (* 197 *)
  | LoopSupabaseError (message : string)                 (* 200 *)
  | LoopUnexpectedError (error : Thrown)                 (* 203 *)
  | FatalError (error : Thrown)                          (* 210, 239 *)
  | ReceivedSignal (signal : ProcessEvent)               (* 218, 223 *)
  | UncaughtException (error : option Thrown)            (* 229 *)
  | UnhandledRejection (reason : option Thrown).         (* 234 *)

Inductive Effect :=
  | Log (line : LogLine)
  | Rpc (fn worker_id_input : string)            (* supabase.rpc(fn, {...}) *)
  | SelectStalled (olderThan : Z)                (* the query of lines 96-102 *)
  | ProcessJob (job : Job.t) (workerId : string) (* processJob(job, id) *)
  | Sleep (ms : Z)
  | SetInterval (timer : nat) (period : Z)
  | ClearInterval (timer : nat)
  | Exit (exitCode : Z).

Inductive Completion (A : Type) :=
  | Resolved (value : A)
  | Rejected (error : Thrown).
Arguments Resolved {A} value.
Arguments Rejected {A} error.

(** An awaited computation: the effects performed, in order, and how it
    completed. *)
Definition Async (A : Type) : Type := list Effect * Completion A.

Module Async.

Definition ret {A} (a : A) : Async A := ([], Resolved a).

Definition throw {A} (e : Thrown) : Async A := ([], Rejected e).

Definition perform (eff : Effect) : Async unit := ([eff], Resolved tt).

Definition bind {A B} (m : Async A) (k : A -> Async B) : Async B :=
  match m with
  | (t, Resolved a) => let '(t', r) := k a in (t ++ t', r)
  | (t, Rejected e) => (t, Rejected e)
  end.

(** [try { body } catch (error) { handler }] *)
Definition try_catch {A} (body : Async A) (handler : Thrown -> Async A) : Async A :=
  match body with
  | (t, Resolved a) => (t, Resolved a)
  | (t, Rejected e) => let '(t', r) := handler e in (t ++ t', r)
  end.

Definition effects {A} (m : Async A) : list Effect := fst m.
Definition completion {A} (m : Async A) : Completion A := snd m.

End Async.

Declare Scope async_scope.
Delimit Scope async_scope with async.
Notation "'let*' x ':=' m 'in' k" := (Async.bind m (fun x => k))
  (at level 10, x pattern, m at level 100, k at level 200) : async_scope.
Notation "m ;; k" := (Async.bind m (fun _ => k))
  (at level 100, k at level 200, right associativity) : async_scope.
Notation "'TRY' body 'CATCH' x => handler" :=
  (Async.try_catch body (fun x => handler))
  (at level 10, x name, body at level 200, handler at level 200) : async_scope.

Definition log (line : LogLine) : Async unit := Async.perform (Log line).

(** [sleep] (lines 160-162) *)
Definition sleep (ms : Z) : Async unit := Async.perform (Sleep ms).

(** ** The outside world

    One [World] holds what the collaborators answer during one activation of
    an asynchronous activity (one poll of the main loop, or one firing of
    the recovery timer). *)

(** What an awaited store call gives: the pair [{ data, error }], or a
    rejection. *)
Inductive StoreReply (A : Type) :=
  | Answer (data : option A) (error : option string)
  | Failure (e : Thrown).
Arguments Answer {A} data error.
Arguments Failure {A} e.

Inductive StoreFault :=
  | ReturnsError (error : string)
  | Throws (e : Thrown).

Record World := {
  now : Z;                                     (* Date.now() *)
  import_jobs : list Job.t;                    (* the table, as the query sees it *)
  select_fault : option StoreFault;            (* the query fails *)
  claim_next_pending_job : StoreReply (list Job.t);
  processJob : Job.t -> string -> option Thrown  (* [Some e]: it rejects with [e] *)
}.

(** *** The query builder of lines 96-102, on the rows of the table *)
Module Query.

Definition eq_status (s : JobStatus) (rows : list Job.t) : list Job.t :=
  List.filter (fun j => JobStatus_eqb (Job.status j) s) rows.

Definition lt_updated_at (bound : Z) (rows : list Job.t) : list Job.t :=
  List.filter (fun j => Job.updated_at j <? bound) rows.

Fixpoint insert_by_created_at (j : Job.t) (rows : list Job.t) : list Job.t :=
  match rows with
  | [] => [j]
  | r :: rows' =>
      if Job.created_at j <=? Job.created_at r then j :: rows
      else r :: insert_by_created_at j rows'
  end.

(** [.order('created_at')]: ascending. *)
Definition order_created_at (rows : list Job.t) : list Job.t :=
  List.fold_right insert_by_created_at [] rows.

Definition limit (n : nat) (rows : list Job.t) : list Job.t := firstn n rows.

End Query.

Definition stalledQuery (bound : Z) (rows : list Job.t) : list Job.t :=
  Query.limit 1
    (Query.order_created_at
       (Query.lt_updated_at bound (Query.eq_status processing rows))).

Definition await {A} (call : Effect) (reply : StoreReply A)
  : Async (option A * option string) :=
  match reply with
  | Answer data error => ([call], Resolved (data, error))
  | Failure e => ([call], Rejected e)
  end.

Definition selectStalled (w : World) (bound : Z) : Async (option (list Job.t) * option string) :=
  await (SelectStalled bound)
    match select_fault w with
    | None => Answer (Some (stalledQuery bound (import_jobs w))) None
    | Some (ReturnsError error) => Answer None (Some error)
    | Some (Throws e) => Failure e
    end.

Definition rpc_claim_next_pending_job (w : World) (worker_id_input : string)
  : Async (option (list Job.t) * option string) :=
  await (Rpc "claim_next_pending_job" worker_id_input) (claim_next_pending_job w).

Definition await_processJob (w : World) (job : Job.t) (workerId : string) : Async unit :=
  ([ProcessJob job workerId],
   match processJob w job workerId with
   | None => Resolved tt
   | Some e => Rejected e
   end).

(** [new Date(ms).toISOString()]: a [RangeError] outside the range of
    [Date]; otherwise the instant, to the millisecond. *)
Definition toISOString (ms : Z) : Async Z :=
  if (-8640000000000000 <=? ms) && (ms <=? 8640000000000000)
  then Async.ret ms
  else Async.throw (Foreign "RangeError: Invalid time value").

(** ** The worker (lines 89-214), for a resolved configuration *)
Section Worker.

Variable config : WorkerConfig.

Local Open Scope async_scope.

(** The [try] block of [recoverStalledJobs] (lines 93-112). *)
Definition recoverStalledJobs_try (w : World) : Async unit :=
  let* stalledTimeout := toISOString (now w - stalledJobTimeout config) in
  let* (jobs, error) := selectStalled w stalledTimeout in
  match error with
  | Some error => Async.throw (SupabaseError "Failed to fetch stalled jobs" error)
  | None =>
      match jobs with
      | Some (job :: _) =>
          log (RecoveringStalledJob (Job.id job)) ;;
          await_processJob w job (id config)
      | _ => Async.ret tt
      end
  end.

(** [recoverStalledJobs] (lines 89-117) *)
Definition recoverStalledJobs (w : World) : Async unit :=
  TRY recoverStalledJobs_try w
  CATCH error =>
    (log (ErrorRecoveringStalledJobs error) ;;
     sleep (retryDelay config)).

(** The [try] block of [checkForPendingJobs] (lines 123-137): the claim and
    the processing of the claimed job. *)
Definition checkForPendingJobs_try (w : World) : Async unit :=
  let* (jobs, error) := rpc_claim_next_pending_job w (id config) in
  match error with
  | Some error => Async.throw (SupabaseError "Failed to claim next job" error)
  | None =>
      match jobs with
      | Some (job :: _) => await_processJob w job (id config)
      | _ => Async.ret tt
      end
  end.

(** [checkForPendingJobs] (lines 119-142) *)
Definition checkForPendingJobs (w : World) : Async unit :=
  TRY checkForPendingJobs_try w
  CATCH error =>
    (log (ErrorCheckingForPendingJobs error) ;;
     sleep (retryDelay config)).

(** [safeSupabaseCall] (lines 144-158) *)
Definition safeSupabaseCall {T} (callback : Async T) : Async T :=
  TRY callback
  CATCH error =>
    if instanceof error CircuitBreakerErrorClass then
      Async.throw error
    else
      match error with
      | SupabaseError message originalError =>
          log (SafeCallSupabaseError message originalError) ;;
          Async.throw error
      | _ =>
          log (SafeCallUnexpectedError error) ;;
          Async.throw
            (WorkerError "Unexpected error during Supabase operation" "UNKNOWN_ERROR")
      end.

(** The callback given to [setInterval] (lines 175-182). *)
Definition stalledJobsTick (w : World) : Async unit :=
  TRY recoverStalledJobs w
  CATCH error => log (ErrorCheckingStalledJobs error).

(** The body of [while (true)] (lines 190-207). *)
Definition iteration (w : World) : Async unit :=
  (TRY checkForPendingJobs w
   CATCH error =>
     if instanceof error CircuitBreakerErrorClass then
       log CircuitBreakerTriggered ;;
       sleep (circuitBreakerResetTimeout config)
     else
       match error with
       | JobProcessingError message jobId =>
           log (JobProcessingErrorFor jobId message) ;;
           sleep (retryDelay config)
       | SupabaseError message _ =>
           log (LoopSupabaseError message) ;;
           sleep (retryDelay config)
       | _ =>
           log (LoopUnexpectedError error) ;;
           sleep (retryDelay config)
       end) ;;
  sleep (pollingInterval config).

End Worker.

(** ** The process: listeners, timers, exit (lines 9-18, 170-186, 216-241)

    [process.on] appends a listener; an event runs its listeners in the
    order of their registration; [process.exit] ends the process at once, so
    nothing after it runs, the later listeners of the same event included. *)

Inductive Listener :=
  | ClearStalledJobsInterval (timer : nat)      (* lines 185, 186 *)
  | ShutDownGracefully (signal : ProcessEvent)  (* lines 217-225 *)
  | CrashOnUncaughtException                    (* lines 228-231 *)
  | CrashOnUnhandledRejection.                  (* lines 233-236 *)

Record Process := {
  listeners : list (ProcessEvent * Listener);
  intervals : list (nat * Z);        (* the active timers, with their period *)
  exitCode : option Z;               (* [None]: still running *)
  output : list Effect
}.

Definition ProcessEvent_eqb (a b : ProcessEvent) : bool :=
  match a, b with
  | SIGTERM, SIGTERM | SIGINT, SIGINT
  | uncaughtException, uncaughtException
  | unhandledRejection, unhandledRejection => true
  | _, _ => false
  end.

Module Proc.

Definition start : Process :=
  {| listeners := []; intervals := []; exitCode := None; output := [] |}.

(** A process that has exited does nothing more. *)
Definition alive (f : Process -> Process) (p : Process) : Process :=
  match exitCode p with
  | Some _ => p
  | None => f p
  end.

Definition emitted (t : list Effect) : Process -> Process :=
  alive (fun p =>
    {| listeners := listeners p; intervals := intervals p;
       exitCode := exitCode p; output := output p ++ t |}).

Definition console (line : LogLine) : Process -> Process := emitted [Log line].

Definition exit (c : Z) : Process -> Process :=
  alive (fun p =>
    {| listeners := listeners p; intervals := intervals p;
       exitCode := Some c; output := output p ++ [Exit c] |}).

Definition on (ev : ProcessEvent) (l : Listener) : Process -> Process :=
  alive (fun p =>
    {| listeners := listeners p ++ [(ev, l)]; intervals := intervals p;
       exitCode := exitCode p; output := output p |}).

Definition setInterval (timer : nat) (period : Z) : Process -> Process :=
  alive (fun p =>
    {| listeners := listeners p; intervals := intervals p ++ [(timer, period)];
       exitCode := exitCode p; output := output p ++ [SetInterval timer period] |}).

Definition clearInterval (timer : nat) : Process -> Process :=
  alive (fun p =>
    {| listeners := listeners p;
       intervals := List.filter (fun '(t, _) => negb (Nat.eqb t timer)) (intervals p);
       exitCode := exitCode p; output := output p ++ [ClearInterval timer] |}).

Definition listen (l : Listener) (arg : option Thrown) (p : Process) : Process :=
  match l with
  | ClearStalledJobsInterval timer => clearInterval timer p
  | ShutDownGracefully signal => exit 0 (console (ReceivedSignal signal) p)
  | CrashOnUncaughtException => exit 1 (console (UncaughtException arg) p)
  | CrashOnUnhandledRejection => exit 1 (console (UnhandledRejection arg) p)
  end.

(** The event [ev] occurs: its listeners run in registration order. *)
Definition emit (ev : ProcessEvent) (arg : option Thrown) (p : Process) : Process :=
  fold_left
    (fun q '(ev', l) => if ProcessEvent_eqb ev ev' then alive (listen l arg) q else q)
    (listeners p) p.

End Proc.

(** The timer of line 175. *)
Definition stalledJobsInterval : nat := 1.

(** [startWorker] up to the loop (lines 171-186). *)
Definition startWorker_setup (config : WorkerConfig) (p : Process) : Process :=
  let p := Proc.console StartingImportWorker p in
  let p := Proc.console (Configuration config) p in
  let p := Proc.setInterval stalledJobsInterval (stalledJobTimeout config) p in
  let p := Proc.on SIGTERM (ClearStalledJobsInterval stalledJobsInterval) p in
  Proc.on SIGINT (ClearStalledJobsInterval stalledJobsInterval) p.

(** The module, evaluated top to bottom until [startWorker] first awaits;
    [env] is [process.env] once [dotenv.config()] has run. *)
Definition main (env : Env) : Process :=
  let supabaseUrl := env !! "NEXT_PUBLIC_SUPABASE_URL" in
  let supabaseKey := env !! "SUPABASE_SERVICE_ROLE_KEY" in
  if JS.notString supabaseUrl || JS.notString supabaseKey then
    Proc.exit 1
      (Proc.console
         (MissingEnvironment (negb (JS.notString supabaseUrl))
            (negb (JS.notString supabaseKey)))
         Proc.start)
  else
    let p := Proc.on SIGTERM (ShutDownGracefully SIGTERM) Proc.start in
    let p := Proc.on SIGINT (ShutDownGracefully SIGINT) p in
    let p := Proc.on uncaughtException CrashOnUncaughtException p in
    let p := Proc.on unhandledRejection CrashOnUnhandledRejection p in
    startWorker_setup (WORKER_CONFIG env) p.

(** What happens to the process afterwards: the main loop runs one more
    iteration, the recovery timer fires, or an event is delivered.  The two
    asynchronous activities share no variable, so each activation is taken
    as a whole. *)
Inductive Activity :=
  | Poll (w : World)
  | Tick (w : World)
  | Emit (ev : ProcessEvent) (arg : option Thrown).

(** One iteration inside the [try] of lines 188-213: an iteration that
    throws reaches the [catch] of line 209. *)
Definition poll (config : WorkerConfig) (w : World) (p : Process) : Process :=
  match iteration config w with
  | (t, Resolved _) => Proc.emitted t p
  | (t, Rejected e) =>
      Proc.exit 1
        (Proc.clearInterval stalledJobsInterval
           (Proc.console (FatalError e) (Proc.emitted t p)))
  end.

(** The timer fires, if it is still set; a rejection of its callback would
    be an unhandled rejection. *)
Definition tick (config : WorkerConfig) (w : World) (p : Process) : Process :=
  if existsb (fun '(t, _) => Nat.eqb t stalledJobsInterval) (intervals p) then
    match stalledJobsTick config w with
    | (t, Resolved _) => Proc.emitted t p
    | (t, Rejected e) => Proc.emit unhandledRejection (Some e) (Proc.emitted t p)
    end
  else p.

Definition act (config : WorkerConfig) (a : Activity) : Process -> Process :=
  Proc.alive
    match a with
    | Poll w => poll config w
    | Tick w => tick config w
    | Emit ev arg => Proc.emit ev arg
    end.

Definition run (config : WorkerConfig) (schedule : list Activity) (p : Process) : Process :=
  fold_left (fun q a => act config a q) schedule p.

(** The whole program on an environment and a schedule. *)
Definition worker (env : Env) (schedule : list Activity) : Process :=
  run (WORKER_CONFIG env) schedule (main env).

(** ** Vocabulary of the properties, and sample inputs *)

(** A numeric variable is unusable when it is missing or when the integer
    read from it is falsy (NaN or 0). *)
Definition parseFalsy (v : option string) : Prop :=
  match v with
  | None => True
  | Some s => JS.parseInt s = None \/ JS.parseInt s = Some 0
  end.

(** The numeric variables: name, field of the configuration, documented
    default. *)
Definition numericVariables : list (string * (WorkerConfig -> Z) * Z) :=
  [ ("POLLING_INTERVAL", pollingInterval, 15000);
    ("STALLED_JOB_TIMEOUT", stalledJobTimeout, 60000);
    ("CIRCUIT_BREAKER_RESET_TIMEOUT", circuitBreakerResetTimeout, 15000);
    ("RETRY_DELAY", retryDelay, 15000) ].

Definition env_zero_and_prefix : Env :=
  <["RETRY_DELAY" := "15abc"]> (<["POLLING_INTERVAL" := "0"]> ∅).

(** A row the scan may pick: being processed and last updated strictly before
    the bound. *)
Definition stalled (bound : Z) (j : Job.t) : Prop :=
  Job.status j = processing /\ Job.updated_at j < bound.

(** The instants that [Date] can represent. *)
Definition inDateRange (ms : Z) : Prop :=
  -8640000000000000 <= ms <= 8640000000000000.

(** The store URL and key are both set (line 12). *)
Definition configured (env : Env) : bool :=
  negb (JS.notString (env !! "NEXT_PUBLIC_SUPABASE_URL")
        || JS.notString (env !! "SUPABASE_SERVICE_ROLE_KEY")).

(** The claim returns no job: [data] is null or an empty array, and there is
    no error. *)
Definition emptyQueue (w : World) : Prop :=
  claim_next_pending_job w = Answer None None \/
  claim_next_pending_job w = Answer (Some []) None.

(** An activity of the worker itself, as opposed to an event delivered to
    the process. *)
Definition ownActivity (a : Activity) : Prop :=
  match a with
  | Emit _ _ => False
  | _ => True
  end.

(** The effects of an activity of the worker. *)
Definition activityEffects (config : WorkerConfig) (a : Activity) : list Effect :=
  match a with
  | Poll w => Async.effects (iteration config w)
  | Tick w => Async.effects (stalledJobsTick config w)
  | Emit _ _ => []
  end.

(** The durations slept, in order. *)
Fixpoint sleeps (t : list Effect) : list Z :=
  match t with
  | Sleep ms :: t' => ms :: sleeps t'
  | _ :: t' => sleeps t'
  | [] => []
  end.


Definition sampleJob (name : string) (s : JobStatus) (created updated : Z) : Job.t :=
  {| Job.id := name; Job.status := s; Job.created_at := created;
     Job.updated_at := updated; Job.worker_id := Some "worker7" |}.

(** A table seen at [now = 1000000] with the default timeout of 60000: the
    bound is 940000. *)
Definition sampleRows : list Job.t :=
  [ sampleJob "at-boundary" processing 100 940000;
    sampleJob "newer" processing 300 900000;
    sampleJob "one-ms-older" processing 200 939999;
    sampleJob "waiting" pending 50 10;
    sampleJob "done" completed 60 20 ].

Definition sampleWorld : World :=
  {| now := 1000000;
     import_jobs := sampleRows;
     select_fault := None;
     claim_next_pending_job := Answer (Some []) None;
     processJob := fun _ _ => None |}.


(** An error of the closed taxonomy. *)
Definition closedKind (error : Thrown) : Prop :=
  instanceof error WorkerErrorClass = true.

(** The wrapper as the specification words it: whatever closed kind the
    callback throws comes out unchanged. *)
Definition rethrowsClosedKindsUnchanged : Prop :=
  forall (callback : Async unit) (e : Thrown),
    Async.completion callback = Rejected e -> closedKind e ->
    Async.completion (safeSupabaseCall callback) = Rejected e.


(** A configuration whose two backoffs differ. *)
Definition env_long_breaker : Env :=
  <["CIRCUIT_BREAKER_RESET_TIMEOUT" := "30000"]>
    (<["SUPABASE_SERVICE_ROLE_KEY" := "service-role-key"]>
       (<["NEXT_PUBLIC_SUPABASE_URL" := "https://example.supabase.co"]> ∅)).

(** The claim returns a job and [processJob] rejects with [e]. *)
Definition worldProcessingFails (e : Thrown) : World :=
  {| now := 1000000;
     import_jobs := [];
     select_fault := None;
     claim_next_pending_job :=
       Answer (Some [sampleJob "claimed" processing 100 999000]) None;
     processJob := fun _ _ => Some e |}.

(** The store call itself rejects with [e]. *)
Definition worldStoreThrows (e : Thrown) : World :=
  {| now := 1000000;
     import_jobs := [];
     select_fault := Some (Throws e);
     claim_next_pending_job := Failure e;
     processJob := fun _ _ => None |}.

(** The recovery timer is set. *)
Definition timerSet (p : Process) : Prop :=
  existsb (fun '(t, _) => Nat.eqb t stalledJobsInterval) (intervals p) = true.

(** The process once the module has been evaluated with its configuration
    present: the listeners in the order of their registration, and the
    recovery timer. *)
Definition started (config : WorkerConfig) : Process :=
  {| listeners :=
       [ (SIGTERM, ShutDownGracefully SIGTERM);
         (SIGINT, ShutDownGracefully SIGINT);
         (uncaughtException, CrashOnUncaughtException);
         (unhandledRejection, CrashOnUnhandledRejection);
         (SIGTERM, ClearStalledJobsInterval stalledJobsInterval);
         (SIGINT, ClearStalledJobsInterval stalledJobsInterval) ];
     intervals := [(stalledJobsInterval, stalledJobTimeout config)];
     exitCode := None;
     output :=
       [ Log StartingImportWorker; Log (Configuration config);
         SetInterval stalledJobsInterval (stalledJobTimeout config) ] |}.

(** The decimal notation of an integer: ["0"], ["15000"], ["-5"]. *)
Definition decimal (z : Z) : string :=
  DecimalString.NilZero.string_of_int (Z.to_int z).

(** A character that cannot start a number: neither white space, nor a
    sign, nor a decimal digit. *)
Definition startsNoNumber (c : ascii) : Prop :=
  JS.isWhiteSpace c = false /\ c <> "-"%char /\ c <> "+"%char /\
  JS.digitValue 10 c = None.

(** The jobs handed to [processJob], with the worker id given, in order. *)
Fixpoint processed (t : list Effect) : list (Job.t * string) :=
  match t with
  | ProcessJob job workerId :: t' => (job, workerId) :: processed t'
  | _ :: t' => processed t'
  | [] => []
  end.

(** The test of [toISOString], as a boolean. *)
Definition inDateRangeb (ms : Z) : bool :=
  (-8640000000000000 <=? ms) && (ms <=? 8640000000000000).

(** The same row held by another worker. *)
Definition withWorker (holder : Job.t -> option string) (j : Job.t) : Job.t :=
  {| Job.id := Job.id j; Job.status := Job.status j;
     Job.created_at := Job.created_at j; Job.updated_at := Job.updated_at j;
     Job.worker_id := holder j |}.

(** The started process with [o] as its output so far. *)
Definition running (config : WorkerConfig) (o : list Effect) : Process :=
  {| listeners := listeners (started config);
     intervals := intervals (started config);
     exitCode := None;
     output := o |}.

(** The first event delivered in a schedule, and the activities before it. *)
Fixpoint firstEvent (schedule : list Activity) : option (ProcessEvent * option Thrown) :=
  match schedule with
  | [] => None
  | Emit ev arg :: _ => Some (ev, arg)
  | _ :: schedule' => firstEvent schedule'
  end.

Fixpoint beforeFirstEvent (schedule : list Activity) : list Activity :=
  match schedule with
  | [] => []
  | Emit _ _ :: _ => []
  | a :: schedule' => a :: beforeFirstEvent schedule'
  end.

(** What the listeners of lines 217-236 do for an event: the line they log
    and the code they exit with. *)
Definition exitCodeFor (ev : ProcessEvent) : Z :=
  match ev with
  | SIGTERM | SIGINT => 0
  | uncaughtException | unhandledRejection => 1
  end.

Definition lastLine (ev : ProcessEvent) (arg : option Thrown) : LogLine :=
  match ev with
  | SIGTERM | SIGINT => ReceivedSignal ev
  | uncaughtException => UncaughtException arg
  | unhandledRejection => UnhandledRejection arg
  end.

(** The effects of the branches that no run enters: the classification of
    lines 193-205, the [catch] clauses of lines 179 and 209, the wrapper, and
    [clearInterval]. *)
Definition deadEffect (eff : Effect) : bool :=
  match eff with
  | ClearInterval _ => true
  | Log line =>
      match line with
      | CircuitBreakerTriggered | JobProcessingErrorFor _ _ | LoopSupabaseError _
      | LoopUnexpectedError _ | ErrorCheckingStalledJobs _ | FatalError _
      | SafeCallSupabaseError _ _ | SafeCallUnexpectedError _ => true
      | _ => false
      end
  | _ => false
  end.

(** Store calls and jobs are tagged with the worker id [me]. *)
Definition underIdentity (me : string) (eff : Effect) : Prop :=
  match eff with
  | Rpc fn worker_id_input => fn = "claim_next_pending_job" /\ worker_id_input = me
  | ProcessJob _ workerId => workerId = me
  | _ => True
  end.




(** * Properties *)

(** Closes [~ In eff t] for an effect [eff] that differs from every element
    of the explicit list [t]. *)
Ltac absent :=
  let H := fresh in
  intros H; simpl in H; decompose [or] H; discriminate || contradiction.

(** ** Configuration resolution *)

Example parseInt_15abc : JS.parseInt "15abc" = Some 15.
Proof. reflexivity. Qed.

Example parseInt_zero : JS.parseInt "0" = Some 0.
Proof. reflexivity. Qed.

Example parseInt_abc : JS.parseInt "abc" = None.
Proof. reflexivity. Qed.

Example parseInt_hex : JS.parseInt "  -0x1f" = Some (-31).
Proof. reflexivity. Qed.

Example parseInt_empty : JS.parseInt "" = None.
Proof. reflexivity. Qed.

(** The expression [parseInt(v || '') || d] of lines 47-50. *)
Lemma orNumber_falsy (v : option string) (d : Z) :
  parseFalsy v -> JS.orNumber (JS.parseInt (JS.orString v "")) d = d.
Proof.
  destruct v as [s|]; cbn [parseFalsy].
  - intros H.
    assert (E : JS.orString (Some s) "" = s) by (destruct s; reflexivity).
    rewrite E. destruct H as [-> | ->]; reflexivity.
  - intros _. reflexivity.
Qed.

Lemma orNumber_truthy (s : string) (n d : Z) :
  JS.parseInt s = Some n -> n <> 0 ->
  JS.orNumber (JS.parseInt (JS.orString (Some s) "")) d = n.
Proof.
  intros E Hn.
  assert (E' : JS.orString (Some s) "" = s) by (destruct s; reflexivity).
  rewrite E', E. simpl. destruct (Z.eqb_spec n 0); [contradiction | reflexivity].
Qed.

(** Each numeric field is the expression of lines 47-50 on its variable. *)
Lemma numericVariables_resolved (env : Env) name field dflt :
  In (name, field, dflt) numericVariables ->
  field (WORKER_CONFIG env) =
    JS.orNumber (JS.parseInt (JS.orString (env !! name) "")) dflt.
Proof.
  intros H. simpl in H.
  decompose [or] H; try contradiction;
    match goal with E : (_, _, _) = (_, _, _) |- _ => injection E as <- <- <- end;
    reflexivity.
Qed.

(** C10: each numeric variable that is missing, or whose integer parse is
    falsy (NaN or 0), resolves to its documented default (15000, 60000,
    15000, 15000), and a missing or empty worker id to [worker1]; resolution
    is a total function, so nothing aborts.  The value ["0"] gives the
    default, not 0; the value ["15abc"] gives 15, not the default; any other
    value gives the non-zero integer parsed from it. *)
Theorem WORKER_CONFIG_defaults (env : Env) :
  (forall name field dflt, In (name, field, dflt) numericVariables ->
     (parseFalsy (env !! name) -> field (WORKER_CONFIG env) = dflt) /\
     (env !! name = Some "0" -> field (WORKER_CONFIG env) = dflt) /\
     (env !! name = Some "15abc" -> field (WORKER_CONFIG env) = 15) /\
     (forall s n, env !! name = Some s -> JS.parseInt s = Some n -> n <> 0 ->
        field (WORKER_CONFIG env) = n)) /\
  (env !! "WORKER_ID" = None \/ env !! "WORKER_ID" = Some "" ->
     id (WORKER_CONFIG env) = "worker1").
Proof.
  split.
  - intros name field dflt Hin.
    rewrite (numericVariables_resolved env name field dflt Hin).
    split; [apply orNumber_falsy |].
    split; [intros ->; reflexivity |].
    split; [intros ->; reflexivity |].
    intros s n -> Hs Hn. now apply orNumber_truthy.
  - unfold WORKER_CONFIG; simpl. intros [-> | ->]; reflexivity.
Qed.

Lemma WORKER_CONFIG_defaults_witness :
  pollingInterval (WORKER_CONFIG env_zero_and_prefix) = 15000 /\
  stalledJobTimeout (WORKER_CONFIG env_zero_and_prefix) = 60000 /\
  retryDelay (WORKER_CONFIG env_zero_and_prefix) = 15 /\
  id (WORKER_CONFIG env_zero_and_prefix) = "worker1".
Proof.
  destruct (WORKER_CONFIG_defaults env_zero_and_prefix) as [Hnum Hid].
  destruct (Hnum "POLLING_INTERVAL" pollingInterval 15000) as (_ & Hzero & _);
    [simpl; tauto |].
  destruct (Hnum "STALLED_JOB_TIMEOUT" stalledJobTimeout 60000) as (Hmissing & _);
    [simpl; tauto |].
  destruct (Hnum "RETRY_DELAY" retryDelay 15000) as (_ & _ & Hprefix & _);
    [simpl; tauto |].
  split; [apply Hzero; reflexivity |].
  split; [apply Hmissing; vm_compute; exact I |].
  split; [apply Hprefix; reflexivity |].
  apply Hid. left. reflexivity.
Defined.

(** ** The stalled-job query *)

Lemma JobStatus_eqb_eq (a b : JobStatus) : JobStatus_eqb a b = true <-> a = b.
Proof. destruct a, b; simpl; split; congruence. Qed.

Lemma candidates_spec (bound : Z) (rows : list Job.t) (j : Job.t) :
  In j (Query.lt_updated_at bound (Query.eq_status processing rows)) <->
  In j rows /\ stalled bound j.
Proof.
  unfold Query.lt_updated_at, Query.eq_status, stalled.
  rewrite !filter_In, JobStatus_eqb_eq, Z.ltb_lt. tauto.
Qed.

Lemma insert_by_created_at_In (j x : Job.t) (rows : list Job.t) :
  In x (Query.insert_by_created_at j rows) <-> x = j \/ In x rows.
Proof.
  induction rows as [|r rows IH]; simpl.
  - intuition congruence.
  - destruct (Job.created_at j <=? Job.created_at r); simpl.
    + intuition congruence.
    + rewrite IH. intuition congruence.
Qed.

Lemma order_created_at_In (x : Job.t) (rows : list Job.t) :
  In x (Query.order_created_at rows) <-> In x rows.
Proof.
  induction rows as [|r rows IH]; simpl.
  - tauto.
  - rewrite insert_by_created_at_In, IH. intuition congruence.
Qed.

(** The first row of the ordered result is an oldest one. *)
Lemma order_created_at_head (rows : list Job.t) (h : Job.t) (t : list Job.t) :
  Query.order_created_at rows = h :: t ->
  forall x, In x rows -> Job.created_at h <= Job.created_at x.
Proof.
  revert h t. induction rows as [|r rows IH]; intros h t E x Hx.
  - destruct Hx.
  - simpl in E.
    destruct (Query.order_created_at rows) as [|h' t'] eqn:E'.
    + assert (rows = []) as ->.
      { destruct rows as [|y ys]; [reflexivity |].
        exfalso. apply (in_nil (a := y)). rewrite <- E'.
        apply order_created_at_In. now left. }
      simpl in E. injection E as <- <-.
      destruct Hx as [<- | []]. lia.
    + specialize (IH h' t' eq_refl).
      simpl in E.
      destruct (Z.leb_spec (Job.created_at r) (Job.created_at h')) as [Hle | Hlt];
        injection E as <- <-.
      * destruct Hx as [<- | Hx]; [lia |]. specialize (IH x Hx). lia.
      * destruct Hx as [<- | Hx]; [lia |]. now apply IH.
Qed.

Lemma stalledQuery_cases (bound : Z) (rows : list Job.t) :
  stalledQuery bound rows = [] \/ exists j, stalledQuery bound rows = [j].
Proof.
  unfold stalledQuery, Query.limit.
  destruct (Query.order_created_at _) as [|h t]; simpl; eauto.
Qed.

Lemma stalledQuery_oldest (bound : Z) (rows : list Job.t) (j : Job.t) :
  stalledQuery bound rows = [j] ->
  In j rows /\ stalled bound j /\
  forall j', In j' rows -> stalled bound j' -> Job.created_at j <= Job.created_at j'.
Proof.
  unfold stalledQuery, Query.limit. intros E.
  destruct (Query.order_created_at _) as [|h t] eqn:Eo; [discriminate |].
  simpl in E. injection E as ->.
  assert (Hin : In j (Query.order_created_at
             (Query.lt_updated_at bound (Query.eq_status processing rows)))).
  { rewrite Eo. now left. }
  apply order_created_at_In, candidates_spec in Hin. destruct Hin as [Hin Hst].
  repeat split; try assumption; try apply Hst.
  intros j' Hin' Hst'.
  eapply order_created_at_head; [exact Eo |].
  apply candidates_spec. now split.
Qed.

Lemma stalledQuery_finds (bound : Z) (rows : list Job.t) (j : Job.t) :
  In j rows -> stalled bound j -> exists j0, stalledQuery bound rows = [j0].
Proof.
  intros Hin Hst.
  destruct (stalledQuery_cases bound rows) as [E | E]; [| exact E].
  exfalso. unfold stalledQuery, Query.limit in E.
  destruct (Query.order_created_at _) as [|h t] eqn:Eo; [| discriminate].
  apply (in_nil (a := j)). rewrite <- Eo.
  apply order_created_at_In, candidates_spec. now split.
Qed.

(** ** The recovery scan *)

Lemma toISOString_inDateRange (ms : Z) :
  inDateRange ms -> toISOString ms = Async.ret ms.
Proof.
  unfold inDateRange, toISOString. intros [H1 H2].
  destruct (Z.leb_spec (-8640000000000000) ms); [| lia].
  destruct (Z.leb_spec ms 8640000000000000); [| lia].
  reflexivity.
Qed.

(** The [try] block of the scan when the store answers the query. *)
Lemma recoverStalledJobs_try_answered (config : WorkerConfig) (w : World) :
  inDateRange (now w - stalledJobTimeout config) ->
  select_fault w = None ->
  recoverStalledJobs_try config w =
    match stalledQuery (now w - stalledJobTimeout config) (import_jobs w) with
    | job :: _ =>
        ([SelectStalled (now w - stalledJobTimeout config);
          Log (RecoveringStalledJob (Job.id job));
          ProcessJob job (id config)],
         match processJob w job (id config) with
         | None => Resolved tt
         | Some e => Rejected e
         end)
    | [] => ([SelectStalled (now w - stalledJobTimeout config)], Resolved tt)
    end.
Proof.
  intros Hr Hf. unfold recoverStalledJobs_try.
  rewrite (toISOString_inDateRange _ Hr).
  unfold selectStalled. rewrite Hf. simpl.
  destruct (stalledQuery _ _) as [|job rest]; [reflexivity |].
  simpl. destruct (processJob w job (id config)); reflexivity.
Qed.

(** The scan never calls the store's [rpc]. *)
Lemma recoverStalledJobs_no_rpc (config : WorkerConfig) (w : World) fn a :
  ~ In (Rpc fn a) (Async.effects (recoverStalledJobs config w)).
Proof.
  unfold recoverStalledJobs, recoverStalledJobs_try, toISOString, selectStalled.
  destruct ((_ <=? _) && (_ <=? _)); simpl.
  - destruct (select_fault w) as [[error | e] |]; simpl;
      try absent.
    destruct (stalledQuery _ _) as [|job rest]; simpl;
      try absent.
    destruct (processJob w job (id config)); simpl;
      absent.
  - absent.
Qed.

(** C2: a recovery scan keeps the rows with [status = processing] whose
    [updated_at] is strictly older than [now - stalledJobTimeout] (a row at
    the boundary is not selected, a row one millisecond older is), orders
    them by [created_at], takes at most one, the oldest, and hands it to
    [processJob] with this worker's id, with no call to the atomic claim. *)
Theorem recoverStalledJobs_selects_oldest_stalled (config : WorkerConfig) (w : World) :
  inDateRange (now w - stalledJobTimeout config) ->
  select_fault w = None ->
  let bound := now w - stalledJobTimeout config in
  let selected := stalledQuery bound (import_jobs w) in
  (selected = [] \/ exists j, selected = [j]) /\
  (forall j, selected = [j] ->
     In j (import_jobs w) /\ Job.status j = processing /\ Job.updated_at j < bound /\
     (forall j', In j' (import_jobs w) -> Job.status j' = processing ->
                 Job.updated_at j' < bound -> Job.created_at j <= Job.created_at j')) /\
  (forall j, In j (import_jobs w) -> Job.status j = processing ->
             Job.updated_at j < bound -> exists j0, selected = [j0]) /\
  (forall j, Job.updated_at j = bound -> selected <> [j]) /\
  (forall j, In j (import_jobs w) -> Job.status j = processing ->
             Job.updated_at j = bound - 1 ->
             (forall j', In j' (import_jobs w) -> Job.status j' = processing ->
                         Job.updated_at j' < bound ->
                         j' = j \/ Job.created_at j < Job.created_at j') ->
             selected = [j]) /\
  (forall j, selected = [j] ->
     exists rest,
       Async.effects (recoverStalledJobs config w) =
         SelectStalled bound :: Log (RecoveringStalledJob (Job.id j)) ::
         ProcessJob j (id config) :: rest /\
       forall j' workerId, ~ In (ProcessJob j' workerId) rest) /\
  (selected = [] -> recoverStalledJobs config w = ([SelectStalled bound], Resolved tt)) /\
  (forall fn a, ~ In (Rpc fn a) (Async.effects (recoverStalledJobs config w))).
Proof.
  intros Hr Hf bound selected.
  split; [apply stalledQuery_cases |].
  split.
  { intros j E. destruct (stalledQuery_oldest _ _ _ E) as (Hin & [Hs Hu] & Hmin).
    repeat split; try assumption.
    intros j' Hin' Hs' Hu'. apply Hmin; [assumption | now split]. }
  split.
  { intros j Hin Hs Hu. apply (stalledQuery_finds bound _ j); [assumption | now split]. }
  split.
  { intros j Hu E. destruct (stalledQuery_oldest _ _ _ E) as (_ & [_ Hlt] & _). lia. }
  split.
  { intros j Hin Hs Hu Hold.
    destruct (stalledQuery_finds bound (import_jobs w) j) as [j0 E];
      [assumption | split; [assumption | lia] |].
    destruct (stalledQuery_oldest _ _ _ E) as (Hin0 & [Hs0 Hu0] & Hmin).
    destruct (Hold j0 Hin0 Hs0 Hu0) as [-> | Hlt]; [exact E |].
    assert (Job.created_at j0 <= Job.created_at j)
      by (apply Hmin; [assumption | split; [assumption | lia]]).
    lia. }
  split.
  { intros j E. unfold recoverStalledJobs.
    rewrite (recoverStalledJobs_try_answered config w Hr Hf).
    fold bound. fold selected. rewrite E.
    destruct (processJob w j (id config)) as [e|]; simpl.
    - eexists; split; [reflexivity |].
      intros j' wid H. simpl in H. decompose [or] H; discriminate || contradiction.
    - exists []. split; [reflexivity |]. intros j' wid [].  }
  split.
  { intros E. unfold recoverStalledJobs.
    rewrite (recoverStalledJobs_try_answered config w Hr Hf).
    fold bound. fold selected. rewrite E. reflexivity. }
  intros fn a. apply recoverStalledJobs_no_rpc.
Qed.

Lemma recoverStalledJobs_selects_oldest_stalled_witness :
  stalledQuery 940000 sampleRows = [sampleJob "one-ms-older" processing 200 939999] /\
  stalledQuery 940000 sampleRows <> [sampleJob "at-boundary" processing 100 940000] /\
  recoverStalledJobs DEFAULT_CONFIG sampleWorld =
    ([SelectStalled 940000; Log (RecoveringStalledJob "one-ms-older");
      ProcessJob (sampleJob "one-ms-older" processing 200 939999) "worker1"],
     Resolved tt).
Proof.
  destruct (recoverStalledJobs_selects_oldest_stalled DEFAULT_CONFIG sampleWorld)
    as (_ & _ & _ & Hboundary & Holder & _).
  { unfold inDateRange; simpl; lia. }
  { reflexivity. }
  split; [| split].
  - apply Holder.
    + simpl; tauto.
    + reflexivity.
    + reflexivity.
    + intros j' Hin Hs Hu. simpl in Hin.
      decompose [or] Hin; subst; simpl in *;
        try discriminate; try lia; try contradiction; auto.
  - apply Hboundary. reflexivity.
  - reflexivity.
Defined.

(** ** One iteration of the main loop *)

Lemma try_catch_resolved {A} (body : Async A) (handler : Thrown -> Async A) v :
  Async.completion body = Resolved v -> Async.try_catch body handler = body.
Proof. destruct body as [t [a | e]]; simpl; intros H; congruence. Qed.

Lemma try_catch_rejected {A} (body : Async A) (handler : Thrown -> Async A) e :
  Async.completion body = Rejected e ->
  Async.try_catch body handler =
    (Async.effects body ++ Async.effects (handler e), Async.completion (handler e)).
Proof.
  destruct body as [t [a | e']]; simpl; intros H; [discriminate |].
  injection H as ->. now destruct (handler e).
Qed.

(** [checkForPendingJobs] resolves whatever its [try] block does. *)
Lemma checkForPendingJobs_resolves (config : WorkerConfig) (w : World) :
  Async.completion (checkForPendingJobs config w) = Resolved tt.
Proof.
  unfold checkForPendingJobs.
  destruct (checkForPendingJobs_try config w) as [t [[] | e]]; reflexivity.
Qed.

Lemma checkForPendingJobs_caught (config : WorkerConfig) (w : World) (e : Thrown) :
  Async.completion (checkForPendingJobs_try config w) = Rejected e ->
  Async.effects (checkForPendingJobs config w) =
    Async.effects (checkForPendingJobs_try config w)
    ++ [Log (ErrorCheckingForPendingJobs e); Sleep (retryDelay config)].
Proof.
  intros H. unfold checkForPendingJobs.
  now rewrite (try_catch_rejected _ _ e H).
Qed.

(** The [catch] of lines 192-206 is never entered. *)
Lemma iteration_eq (config : WorkerConfig) (w : World) :
  iteration config w =
    (Async.effects (checkForPendingJobs config w) ++ [Sleep (pollingInterval config)],
     Resolved tt).
Proof.
  unfold iteration.
  pose proof (checkForPendingJobs_resolves config w) as H.
  rewrite (try_catch_resolved _ _ tt H).
  destruct (checkForPendingJobs config w) as [t c]. simpl in H. subst c. reflexivity.
Qed.

(** The effects of the [try] block, by what the store and [processJob]
    answer. *)
Lemma checkForPendingJobs_try_eq (config : WorkerConfig) (w : World) :
  checkForPendingJobs_try config w =
    match claim_next_pending_job w with
    | Failure e => ([Rpc "claim_next_pending_job" (id config)], Rejected e)
    | Answer _ (Some error) =>
        ([Rpc "claim_next_pending_job" (id config)],
         Rejected (SupabaseError "Failed to claim next job" error))
    | Answer (Some (job :: _)) None =>
        ([Rpc "claim_next_pending_job" (id config); ProcessJob job (id config)],
         match processJob w job (id config) with
         | None => Resolved tt
         | Some e => Rejected e
         end)
    | Answer _ None => ([Rpc "claim_next_pending_job" (id config)], Resolved tt)
    end.
Proof.
  unfold checkForPendingJobs_try, rpc_claim_next_pending_job, await.
  destruct (claim_next_pending_job w) as [[[|job rest]|] [error|] | e]; simpl;
    try reflexivity.
Qed.

Lemma checkForPendingJobs_no_breaker_line (config : WorkerConfig) (w : World) :
  ~ In (Log CircuitBreakerTriggered) (Async.effects (checkForPendingJobs config w)).
Proof.
  unfold checkForPendingJobs. rewrite checkForPendingJobs_try_eq.
  destruct (claim_next_pending_job w) as [[[|job rest]|] [error|] | e]; simpl;
    try absent.
  destruct (processJob w job (id config)); simpl;
    absent.
Qed.

(** C5: every error raised by the claim or by the processing, a
    [CircuitBreakerError] included, is caught inside [checkForPendingJobs],
    which logs it, sleeps [retryDelay] and resolves; nothing reaches the
    classification of the main loop, whose circuit-breaker branch never
    runs: an iteration is [checkForPendingJobs] followed by the
    [pollingInterval] sleep. *)
Theorem checkForPendingJobs_catches_everything (config : WorkerConfig) (w : World) :
  Async.completion (checkForPendingJobs config w) = Resolved tt /\
  (forall e, Async.completion (checkForPendingJobs_try config w) = Rejected e ->
     Async.effects (checkForPendingJobs config w) =
       Async.effects (checkForPendingJobs_try config w)
       ++ [Log (ErrorCheckingForPendingJobs e); Sleep (retryDelay config)]) /\
  iteration config w =
    (Async.effects (checkForPendingJobs config w) ++ [Sleep (pollingInterval config)],
     Resolved tt) /\
  ~ In (Log CircuitBreakerTriggered) (Async.effects (iteration config w)).
Proof.
  split; [apply checkForPendingJobs_resolves |].
  split; [apply checkForPendingJobs_caught |].
  split; [apply iteration_eq |].
  rewrite iteration_eq. simpl. rewrite in_app_iff.
  intros [H | [H | []]]; [| discriminate].
  now apply checkForPendingJobs_no_breaker_line in H.
Qed.

Lemma checkForPendingJobs_catches_everything_witness :
  checkForPendingJobs (WORKER_CONFIG env_long_breaker)
    (worldStoreThrows (CircuitBreakerError "Circuit breaker is open")) =
    ([Rpc "claim_next_pending_job" "worker1";
      Log (ErrorCheckingForPendingJobs (CircuitBreakerError "Circuit breaker is open"));
      Sleep 15000],
     Resolved tt).
Proof.
  pose (config := WORKER_CONFIG env_long_breaker).
  pose (w := worldStoreThrows (CircuitBreakerError "Circuit breaker is open")).
  destruct (checkForPendingJobs_catches_everything config w) as (Hc & He & _).
  specialize (He (CircuitBreakerError "Circuit breaker is open") eq_refl).
  destruct (checkForPendingJobs config w) as [t c] eqn:E.
  simpl in Hc, He. subst t c. reflexivity.
Defined.

(** ** The process *)

Lemma emitted_alive (t : list Effect) (p : Process) :
  exitCode p = None ->
  Proc.emitted t p =
    {| listeners := listeners p; intervals := intervals p;
       exitCode := None; output := output p ++ t |}.
Proof. intros H. unfold Proc.emitted, Proc.alive. now rewrite H. Qed.

Lemma alive_emitted (t : list Effect) (p : Process) :
  Proc.alive (Proc.emitted t) p = Proc.emitted t p.
Proof. unfold Proc.emitted, Proc.alive. now destruct (exitCode p). Qed.

Lemma run_cons (config : WorkerConfig) (a : Activity) (schedule : list Activity) p :
  run config (a :: schedule) p = run config schedule (act config a p).
Proof. reflexivity. Qed.

Lemma run_app (config : WorkerConfig) (s1 s2 : list Activity) p :
  run config (s1 ++ s2) p = run config s2 (run config s1 p).
Proof. unfold run. apply fold_left_app. Qed.

(** An iteration never reaches the [catch] of line 209. *)
Lemma poll_eq (config : WorkerConfig) (w : World) (p : Process) :
  poll config w p = Proc.emitted (Async.effects (iteration config w)) p.
Proof. unfold poll. now rewrite iteration_eq. Qed.

Lemma recoverStalledJobs_resolves (config : WorkerConfig) (w : World) :
  Async.completion (recoverStalledJobs config w) = Resolved tt.
Proof.
  unfold recoverStalledJobs.
  destruct (recoverStalledJobs_try config w) as [t [[] | e]]; reflexivity.
Qed.

Lemma recoverStalledJobs_caught (config : WorkerConfig) (w : World) (e : Thrown) :
  Async.completion (recoverStalledJobs_try config w) = Rejected e ->
  Async.effects (recoverStalledJobs config w) =
    Async.effects (recoverStalledJobs_try config w)
    ++ [Log (ErrorRecoveringStalledJobs e); Sleep (retryDelay config)].
Proof.
  intros H. unfold recoverStalledJobs.
  now rewrite (try_catch_rejected _ _ e H).
Qed.

(** The [catch] of line 179 is never entered. *)
Lemma stalledJobsTick_eq (config : WorkerConfig) (w : World) :
  stalledJobsTick config w = recoverStalledJobs config w.
Proof.
  unfold stalledJobsTick.
  apply try_catch_resolved with tt, recoverStalledJobs_resolves.
Qed.

Lemma tick_eq (config : WorkerConfig) (w : World) (p : Process) :
  timerSet p ->
  tick config w p = Proc.emitted (Async.effects (recoverStalledJobs config w)) p.
Proof.
  unfold timerSet, tick. intros ->. rewrite stalledJobsTick_eq.
  pose proof (recoverStalledJobs_resolves config w) as H.
  destruct (recoverStalledJobs config w) as [t c]. simpl in H. now subst c.
Qed.

Lemma act_own (config : WorkerConfig) (a : Activity) (p : Process) :
  ownActivity a -> timerSet p ->
  act config a p = Proc.emitted (activityEffects config a) p.
Proof.
  intros Ha Hp. destruct a as [w | w | ev arg]; simpl in *.
  - unfold act, Proc.alive. rewrite poll_eq.
    destruct (exitCode p) eqn:E; [| reflexivity].
    unfold Proc.emitted, Proc.alive. now rewrite E.
  - unfold act, Proc.alive. rewrite (tick_eq config w p Hp), stalledJobsTick_eq.
    destruct (exitCode p) eqn:E; [| reflexivity].
    unfold Proc.emitted, Proc.alive. now rewrite E.
  - contradiction.
Qed.

(** A schedule of the worker's own activities only appends their effects:
    the listeners, the timer and the exit status stay as they are. *)
Lemma run_own (config : WorkerConfig) (schedule : list Activity) (p : Process) :
  Forall ownActivity schedule -> timerSet p -> exitCode p = None ->
  run config schedule p =
    {| listeners := listeners p; intervals := intervals p; exitCode := None;
       output := output p ++ flat_map (activityEffects config) schedule |}.
Proof.
  revert p. induction schedule as [|a schedule IH]; intros p Hall Ht Hp.
  - simpl. rewrite app_nil_r. destruct p; simpl in *; now subst.
  - inversion Hall as [|? ? Ha Hs]; subst.
    rewrite run_cons, (act_own config a p Ha Ht), (emitted_alive _ p Hp).
    rewrite IH; [| assumption | exact Ht | reflexivity].
    simpl. now rewrite <- app_assoc.
Qed.

Lemma main_configured (env : Env) :
  configured env = true -> main env = started (WORKER_CONFIG env).
Proof.
  unfold configured, main. intros H.
  destruct (JS.notString _ || JS.notString _); [discriminate | reflexivity].
Qed.

Lemma main_unconfigured (env : Env) :
  configured env = false ->
  main env =
    {| listeners := []; intervals := []; exitCode := Some 1;
       output :=
         [ Log (MissingEnvironment
                  (negb (JS.notString (env !! "NEXT_PUBLIC_SUPABASE_URL")))
                  (negb (JS.notString (env !! "SUPABASE_SERVICE_ROLE_KEY"))));
           Exit 1 ] |}.
Proof.
  unfold configured, main. intros H.
  destruct (JS.notString _ || JS.notString _); [reflexivity | discriminate].
Qed.

(** Once the process has exited, no activity does anything. *)
Lemma run_exited (config : WorkerConfig) (schedule : list Activity) (p : Process) c :
  exitCode p = Some c -> run config schedule p = p.
Proof.
  intros H. induction schedule as [|a schedule IH]; [reflexivity |].
  rewrite run_cons. unfold act, Proc.alive. now rewrite H.
Qed.

(** C7: every iteration ends with the [pollingInterval] sleep whatever
    happened before; when the claim returns no job the iteration is the
    claim followed by that sleep, with nothing logged and nothing thrown; and
    any number of consecutive empty-queue iterations is that pair repeated,
    the process still running. *)
Theorem iteration_sleeps_pollingInterval (config : WorkerConfig) :
  (forall w, exists t,
     iteration config w = (t ++ [Sleep (pollingInterval config)], Resolved tt)) /\
  (forall w, emptyQueue w ->
     iteration config w =
       ([Rpc "claim_next_pending_job" (id config); Sleep (pollingInterval config)],
        Resolved tt)) /\
  (forall ws p, Forall emptyQueue ws -> exitCode p = None ->
     exitCode (run config (map Poll ws) p) = None /\
     output (run config (map Poll ws) p) =
       output p ++
       flat_map (fun _ => [Rpc "claim_next_pending_job" (id config);
                           Sleep (pollingInterval config)]) ws).
Proof.
  assert (Hempty : forall w, emptyQueue w ->
     iteration config w =
       ([Rpc "claim_next_pending_job" (id config); Sleep (pollingInterval config)],
        Resolved tt)).
  { intros w Hw. rewrite iteration_eq. unfold checkForPendingJobs.
    rewrite checkForPendingJobs_try_eq. destruct Hw as [-> | ->]; reflexivity. }
  split; [| split; [exact Hempty |]].
  - intros w. eexists. apply iteration_eq.
  - intros ws. induction ws as [|w ws IH]; intros p Hall Hp.
    + simpl. split; [assumption | now rewrite app_nil_r].
    + inversion Hall as [|? ? Hw Hws]; subst.
      cbn [map]. rewrite run_cons.
      unfold act, Proc.alive. rewrite Hp, poll_eq, (Hempty w Hw).
      rewrite (emitted_alive _ p Hp).
      match goal with |- context [run config _ ?q] =>
        destruct (IH q Hws eq_refl) as [IH1 IH2] end.
      split; [exact IH1 |]. rewrite IH2. simpl. now rewrite <- app_assoc.
Qed.

Lemma iteration_sleeps_pollingInterval_witness :
  output (run DEFAULT_CONFIG [Poll sampleWorld; Poll sampleWorld] (started DEFAULT_CONFIG)) =
    output (started DEFAULT_CONFIG) ++
    [ Rpc "claim_next_pending_job" "worker1"; Sleep 15000;
      Rpc "claim_next_pending_job" "worker1"; Sleep 15000 ].
Proof.
  destruct (iteration_sleeps_pollingInterval DEFAULT_CONFIG) as (_ & _ & H).
  destruct (H [sampleWorld; sampleWorld] (started DEFAULT_CONFIG)) as [_ Hout].
  - repeat constructor; right; reflexivity.
  - reflexivity.
  - exact Hout.
Defined.

(** ** The error taxonomy and the normalizing wrapper *)

Lemma safeSupabaseCall_resolved {T} (callback : Async T) (v : T) :
  Async.completion callback = Resolved v -> safeSupabaseCall callback = callback.
Proof. apply try_catch_resolved. Qed.

Lemma safeSupabaseCall_rejected {T} (callback : Async T) (e : Thrown) :
  Async.completion callback = Rejected e ->
  Async.completion (safeSupabaseCall callback) =
    Rejected
      (if instanceof e CircuitBreakerErrorClass || instanceof e SupabaseErrorClass
       then e
       else WorkerError "Unexpected error during Supabase operation" "UNKNOWN_ERROR").
Proof.
  intros H. unfold safeSupabaseCall.
  rewrite (try_catch_rejected _ _ e H). simpl.
  destruct e; reflexivity.
Qed.

(** C4, as stated, fails: a [JobProcessingError] is one of the closed kinds,
    and the wrapper replaces it by a [WorkerError] with code
    [UNKNOWN_ERROR]. *)
Lemma safeSupabaseCall_replaces_JobProcessingError :
  closedKind (JobProcessingError "transform failed" "job-1") /\
  Async.completion
    (safeSupabaseCall
       (Async.throw (JobProcessingError "transform failed" "job-1") : Async unit)) =
    Rejected (WorkerError "Unexpected error during Supabase operation" "UNKNOWN_ERROR") /\
  ~ rethrowsClosedKindsUnchanged.
Proof.
  split; [reflexivity |]. split; [reflexivity |].
  intros H.
  specialize (H (Async.throw (JobProcessingError "transform failed" "job-1"))
                (JobProcessingError "transform failed" "job-1") eq_refl eq_refl).
  discriminate H.
Qed.

(** C4, amended: a callback that resolves gives its result unchanged, with
    nothing logged; a callback that throws a [CircuitBreakerError] or a
    [SupabaseError] has it re-thrown unchanged; any other thrown value, the
    other kinds of the taxonomy included, is replaced by a [WorkerError] with
    code [UNKNOWN_ERROR]. *)
Theorem safeSupabaseCall_passes_breaker_and_store_errors
    {T} (callback : Async T) :
  (forall v, Async.completion callback = Resolved v ->
     safeSupabaseCall callback = callback) /\
  (forall e, Async.completion callback = Rejected e ->
     instanceof e CircuitBreakerErrorClass = true \/
     instanceof e SupabaseErrorClass = true ->
     Async.completion (safeSupabaseCall callback) = Rejected e) /\
  (forall e, Async.completion callback = Rejected e ->
     instanceof e CircuitBreakerErrorClass = false ->
     instanceof e SupabaseErrorClass = false ->
     Async.completion (safeSupabaseCall callback) =
       Rejected (WorkerError "Unexpected error during Supabase operation" "UNKNOWN_ERROR") /\
     code (WorkerError "Unexpected error during Supabase operation" "UNKNOWN_ERROR")
       = Some "UNKNOWN_ERROR").
Proof.
  split; [apply safeSupabaseCall_resolved |]. split.
  - intros e He Hk. rewrite (safeSupabaseCall_rejected _ e He).
    destruct Hk as [-> | ->]; [reflexivity | now rewrite orb_true_r].
  - intros e He H1 H2. rewrite (safeSupabaseCall_rejected _ e He), H1, H2.
    split; reflexivity.
Qed.

Lemma safeSupabaseCall_passes_breaker_and_store_errors_witness :
  safeSupabaseCall (Async.ret 7) = Async.ret 7 /\
  Async.completion
    (safeSupabaseCall (Async.throw (SupabaseError "Failed to claim next job" "timeout")
                       : Async Z)) =
    Rejected (SupabaseError "Failed to claim next job" "timeout") /\
  Async.completion
    (safeSupabaseCall (Async.throw (StalledJobError "stalled" "job-2") : Async Z)) =
    Rejected (WorkerError "Unexpected error during Supabase operation" "UNKNOWN_ERROR").
Proof.
  split; [| split].
  - apply (safeSupabaseCall_passes_breaker_and_store_errors (Async.ret 7)) with 7.
    reflexivity.
  - apply (safeSupabaseCall_passes_breaker_and_store_errors
             (Async.throw (SupabaseError "Failed to claim next job" "timeout"))).
    + reflexivity.
    + right; reflexivity.
  - destruct (safeSupabaseCall_passes_breaker_and_store_errors
                (Async.throw (StalledJobError "stalled" "job-2") : Async Z))
      as (_ & _ & H).
    apply (H (StalledJobError "stalled" "job-2")); reflexivity.
Defined.

(** ** Failures inside an iteration *)

Lemma checkForPendingJobs_try_no_sleep (config : WorkerConfig) (w : World) :
  sleeps (Async.effects (checkForPendingJobs_try config w)) = [].
Proof.
  rewrite checkForPendingJobs_try_eq.
  destruct (claim_next_pending_job w) as [[[|job rest]|] [error|] | e]; reflexivity.
Qed.

Lemma sleeps_app (t1 t2 : list Effect) : sleeps (t1 ++ t2) = sleeps t1 ++ sleeps t2.
Proof.
  induction t1 as [|x t1 IH]; [reflexivity |].
  destruct x; simpl; rewrite ?IH; reflexivity.
Qed.

(** Whatever the error, a failed iteration sleeps [retryDelay] and then
    [pollingInterval]. *)
Lemma iteration_failure_sleeps (config : WorkerConfig) (w : World) (e : Thrown) :
  Async.completion (checkForPendingJobs_try config w) = Rejected e ->
  sleeps (Async.effects (iteration config w)) =
    [retryDelay config; pollingInterval config].
Proof.
  intros H. rewrite iteration_eq. simpl.
  rewrite (checkForPendingJobs_caught config w e H), !sleeps_app,
    checkForPendingJobs_try_no_sleep.
  reflexivity.
Qed.



(** ** Store calls and the wrapper *)




(** ** The two activities in the running process *)

Lemma worker_own (env : Env) (schedule : list Activity) :
  configured env = true -> Forall ownActivity schedule ->
  worker env schedule =
    {| listeners := listeners (started (WORKER_CONFIG env));
       intervals := [(stalledJobsInterval, stalledJobTimeout (WORKER_CONFIG env))];
       exitCode := None;
       output := output (main env)
                 ++ flat_map (activityEffects (WORKER_CONFIG env)) schedule |}.
Proof.
  intros Hc Hs. unfold worker. rewrite (main_configured env Hc).
  now rewrite run_own.
Qed.

Lemma worker_snoc (env : Env) (schedule : list Activity) (a : Activity) :
  worker env (schedule ++ [a]) = act (WORKER_CONFIG env) a (worker env schedule).
Proof. unfold worker. now rewrite run_app. Qed.

(** C8: a failure during a recovery scan, whatever it is, is caught and
    logged inside [recoverStalledJobs], which then sleeps [retryDelay] and
    resolves; the callback of the timer resolves too, so the firing leaves
    the process running, the timer set with its period [stalledJobTimeout],
    and the main loop goes on with its next iteration. *)
Theorem recovery_failures_are_contained
    (env : Env) (schedule : list Activity) (w : World) :
  configured env = true -> Forall ownActivity schedule ->
  let config := WORKER_CONFIG env in
  Async.completion (recoverStalledJobs config w) = Resolved tt /\
  (forall e, Async.completion (recoverStalledJobs_try config w) = Rejected e ->
     Async.effects (recoverStalledJobs config w) =
       Async.effects (recoverStalledJobs_try config w)
       ++ [Log (ErrorRecoveringStalledJobs e); Sleep (retryDelay config)]) /\
  stalledJobsTick config w = recoverStalledJobs config w /\
  exitCode (worker env (schedule ++ [Tick w])) = None /\
  intervals (worker env (schedule ++ [Tick w])) =
    [(stalledJobsInterval, stalledJobTimeout config)] /\
  output (worker env (schedule ++ [Tick w])) =
    output (worker env schedule) ++ Async.effects (recoverStalledJobs config w) /\
  (forall w', output (worker env (schedule ++ [Tick w; Poll w'])) =
     output (worker env (schedule ++ [Tick w]))
     ++ Async.effects (iteration config w')).
Proof.
  intros Hc Hs config.
  assert (Hs1 : Forall ownActivity (schedule ++ [Tick w])).
  { apply Forall_app. split; [assumption | repeat constructor]. }
  split; [apply recoverStalledJobs_resolves |].
  split; [apply recoverStalledJobs_caught |].
  split; [apply stalledJobsTick_eq |].
  rewrite (worker_own env _ Hc Hs1), (worker_own env _ Hc Hs).
  cbn [exitCode intervals output].
  split; [reflexivity |]. split; [reflexivity |].
  split.
  - rewrite flat_map_app. cbn [flat_map activityEffects].
    now rewrite stalledJobsTick_eq, app_nil_r, app_assoc.
  - intros w'.
    assert (Hs2 : Forall ownActivity (schedule ++ [Tick w; Poll w'])).
    { apply Forall_app. split; [assumption | repeat constructor]. }
    rewrite (worker_own env _ Hc Hs2). cbn [output].
    rewrite !flat_map_app. cbn [flat_map activityEffects].
    now rewrite !app_nil_r, !app_assoc.
Qed.

Lemma recovery_failures_are_contained_witness :
  output (worker env_long_breaker
            [Tick (worldStoreThrows (Foreign "TypeError: fetch failed"))]) =
    output (worker env_long_breaker []) ++
    [ SelectStalled 940000;
      Log (ErrorRecoveringStalledJobs (Foreign "TypeError: fetch failed"));
      Sleep 15000 ] /\
  exitCode (worker env_long_breaker
              [Tick (worldStoreThrows (Foreign "TypeError: fetch failed"))]) = None.
Proof.
  destruct (recovery_failures_are_contained env_long_breaker []
              (worldStoreThrows (Foreign "TypeError: fetch failed")))
    as (_ & _ & _ & Hexit & _ & Hout & _).
  - reflexivity.
  - constructor.
  - split; [exact Hout | exact Hexit].
Defined.

(** C9: the loop has no way out of its own.  Whatever the claims return and
    whatever fails inside the iterations and the recovery scans, the process
    is still running after them, every iteration of the schedule has run in
    full, and one more iteration runs after them; the process exits only
    when an event (a signal, an uncaught exception, an unhandled rejection)
    is delivered to it. *)
Theorem worker_loops_until_terminated (env : Env) (schedule : list Activity) :
  configured env = true ->
  (Forall ownActivity schedule ->
     exitCode (worker env schedule) = None /\
     output (worker env schedule) =
       output (main env) ++ flat_map (activityEffects (WORKER_CONFIG env)) schedule /\
     forall w,
       exitCode (worker env (schedule ++ [Poll w])) = None /\
       output (worker env (schedule ++ [Poll w])) =
         output (worker env schedule)
         ++ Async.effects (iteration (WORKER_CONFIG env) w)) /\
  (exitCode (worker env schedule) <> None ->
     exists ev arg, In (Emit ev arg) schedule).
Proof.
  intros Hc.
  assert (Hown : Forall ownActivity schedule ->
     exitCode (worker env schedule) = None /\
     output (worker env schedule) =
       output (main env) ++ flat_map (activityEffects (WORKER_CONFIG env)) schedule /\
     forall w,
       exitCode (worker env (schedule ++ [Poll w])) = None /\
       output (worker env (schedule ++ [Poll w])) =
         output (worker env schedule)
         ++ Async.effects (iteration (WORKER_CONFIG env) w)).
  { intros Hs. rewrite (worker_own env _ Hc Hs). cbn [exitCode output].
    split; [reflexivity |]. split; [reflexivity |].
    intros w.
    assert (Hs1 : Forall ownActivity (schedule ++ [Poll w])).
    { apply Forall_app. split; [assumption | repeat constructor]. }
    rewrite (worker_own env _ Hc Hs1). cbn [exitCode output].
    split; [reflexivity |].
    rewrite flat_map_app. cbn [flat_map activityEffects].
    now rewrite app_nil_r, app_assoc. }
  split; [exact Hown |].
  intros Hexit.
  assert (Hdec : Forall ownActivity schedule \/ exists ev arg, In (Emit ev arg) schedule).
  { clear. induction schedule as [|a schedule [IH | (ev & arg & IH)]].
    - left; constructor.
    - destruct a as [w | w | ev arg].
      + left; constructor; [exact I | assumption].
      + left; constructor; [exact I | assumption].
      + right; exists ev, arg; now left.
    - right; exists ev, arg; now right. }
  destruct Hdec as [Hs | Hex]; [| exact Hex].
  exfalso. apply Hexit. now apply Hown.
Qed.

Lemma worker_loops_until_terminated_witness :
  exitCode
    (worker env_long_breaker
       [ Poll (worldStoreThrows (Foreign "TypeError: fetch failed"));
         Tick sampleWorld;
         Poll (worldProcessingFails (JobProcessingError "transform failed" "claimed")) ]) =
    None.
Proof.
  destruct (worker_loops_until_terminated env_long_breaker
              [ Poll (worldStoreThrows (Foreign "TypeError: fetch failed"));
                Tick sampleWorld;
                Poll (worldProcessingFails
                        (JobProcessingError "transform failed" "claimed")) ])
    as [H _].
  - reflexivity.
  - apply H. repeat constructor.
Defined.

(** ** Exit codes *)

(** Without the store URL or key the process exits with code 1 at line 17:
    no listener, no timer, no store call, whatever is scheduled. *)
Lemma worker_unconfigured (env : Env) (schedule : list Activity) :
  configured env = false ->
  worker env schedule = main env /\
  exitCode (main env) = Some 1 /\
  intervals (main env) = [] /\
  exists hasUrl hasKey,
    output (main env) = [Log (MissingEnvironment hasUrl hasKey); Exit 1].
Proof.
  intros H.
  assert (E : exitCode (main env) = Some 1)
    by now rewrite (main_unconfigured env H).
  split; [unfold worker; now apply run_exited with 1 |].
  split; [exact E |].
  rewrite (main_unconfigured env H). split; [reflexivity | eauto].
Qed.

(** A termination signal: the listener of lines 217-225 is the first one
    registered for it, and it exits with code 0; the listener of lines
    185-186 comes after it and does not run. *)
Lemma worker_signalled (env : Env) (schedule : list Activity) (signal : ProcessEvent) arg :
  configured env = true -> Forall ownActivity schedule ->
  signal = SIGTERM \/ signal = SIGINT ->
  worker env (schedule ++ [Emit signal arg]) =
    {| listeners := listeners (worker env schedule);
       intervals := [(stalledJobsInterval, stalledJobTimeout (WORKER_CONFIG env))];
       exitCode := Some 0;
       output := output (worker env schedule) ++ [Log (ReceivedSignal signal); Exit 0] |}.
Proof.
  intros Hc Hs Hsig. rewrite worker_snoc, (worker_own env _ Hc Hs).
  destruct Hsig as [-> | ->]; cbn; now rewrite <- app_assoc.
Qed.

(** An uncaught exception or an unhandled rejection: exit with code 1. *)
Lemma worker_crashed (env : Env) (schedule : list Activity) (ev : ProcessEvent) arg :
  configured env = true -> Forall ownActivity schedule ->
  ev = uncaughtException \/ ev = unhandledRejection ->
  exitCode (worker env (schedule ++ [Emit ev arg])) = Some 1.
Proof.
  intros Hc Hs Hev. rewrite worker_snoc, (worker_own env _ Hc Hs).
  destruct Hev as [-> | ->]; reflexivity.
Qed.

(** C6, on the code: a worker that has polled once receives SIGTERM.  It
    exits with code 0, and the recovery timer has not been cleared: no
    [clearInterval] is performed and the timer is still set when the process
    ends. *)
Theorem SIGTERM_exits_with_timer_still_set :
  worker env_long_breaker [Poll sampleWorld; Emit SIGTERM None] =
    {| listeners := listeners (started (WORKER_CONFIG env_long_breaker));
       intervals := [(stalledJobsInterval, 60000)];
       exitCode := Some 0;
       output :=
         [ Log StartingImportWorker;
           Log (Configuration (WORKER_CONFIG env_long_breaker));
           SetInterval stalledJobsInterval 60000;
           Rpc "claim_next_pending_job" "worker1";
           Sleep 15000;
           Log (ReceivedSignal SIGTERM);
           Exit 0 ] |} /\
  ~ In (ClearInterval stalledJobsInterval)
       (output (worker env_long_breaker [Poll sampleWorld; Emit SIGTERM None])) /\
  exitCode (worker ∅ [Poll sampleWorld]) = Some 1 /\
  exitCode (worker env_long_breaker
              [Poll sampleWorld; Emit unhandledRejection (Some (Foreign "reason"))]) =
    Some 1.
Proof.
  split; [reflexivity |]. split; [| split; reflexivity].
  intros H. vm_compute in H. decompose [or] H; discriminate || contradiction.
Qed.

(** * Further properties *)

(** ** Configuration values *)

Lemma parseDigits_of_uint_acc (d : Decimal.uint) (p : positive) :
  JS.parseDigits 10 (DecimalString.NilEmpty.string_of_uint d) (Some (Z.pos p)) =
    Some (Z.pos (Pos.of_uint_acc d p)).
Proof.
  revert p. induction d; intros p; cbn [DecimalString.NilEmpty.string_of_uint
    JS.parseDigits Pos.of_uint_acc]; [reflexivity | ..];
    match goal with
    | |- context [JS.digitValue 10 ?c] =>
        let v := eval vm_compute in (JS.digitValue 10 c) in
        change (JS.digitValue 10 c) with v
    end;
    cbv iota; rewrite <- IHd; do 2 f_equal; lia.
Qed.

Lemma parseDigits_of_uint_zero (d : Decimal.uint) :
  JS.parseDigits 10 (DecimalString.NilEmpty.string_of_uint d) (Some 0) =
    Some (Z.of_N (Pos.of_uint d)).
Proof.
  induction d; cbn [DecimalString.NilEmpty.string_of_uint JS.parseDigits Pos.of_uint];
    [reflexivity | ..];
    match goal with
    | |- context [JS.digitValue 10 ?c] =>
        let v := eval vm_compute in (JS.digitValue 10 c) in
        change (JS.digitValue 10 c) with v
    end;
    cbv iota; [exact IHd | ..]; apply (parseDigits_of_uint_acc d).
Qed.

Lemma parseDigits_of_uint (d : Decimal.uint) :
  d <> Decimal.Nil ->
  JS.parseDigits 10 (DecimalString.NilEmpty.string_of_uint d) None =
    Some (Z.of_N (Pos.of_uint d)).
Proof.
  destruct d; [congruence | ..]; intros _;
    cbn [DecimalString.NilEmpty.string_of_uint JS.parseDigits Pos.of_uint];
    match goal with
    | |- context [JS.digitValue 10 ?c] =>
        let v := eval vm_compute in (JS.digitValue 10 c) in
        change (JS.digitValue 10 c) with v
    end;
    cbv iota; [apply parseDigits_of_uint_zero | ..]; apply (parseDigits_of_uint_acc d).
Qed.

Lemma stripHexPrefix_of_uint (d : Decimal.uint) :
  JS.stripHexPrefix (DecimalString.NilEmpty.string_of_uint d) =
    (10, DecimalString.NilEmpty.string_of_uint d).
Proof. destruct d as [|d|d|d|d|d|d|d|d|d|d]; try reflexivity. destruct d; reflexivity. Qed.

Lemma parseInt_of_uint (u : Decimal.uint) :
  u <> Decimal.Nil ->
  JS.parseInt (DecimalString.NilEmpty.string_of_uint u) = Some (Z.of_N (Pos.of_uint u)) /\
  JS.parseInt (String "-" (DecimalString.NilEmpty.string_of_uint u)) =
    Some (- Z.of_N (Pos.of_uint u)).
Proof.
  intros Hu.
  assert (E1 : JS.trimStart (DecimalString.NilEmpty.string_of_uint u) =
               DecimalString.NilEmpty.string_of_uint u)
    by (destruct u; [congruence | reflexivity ..]).
  assert (E2 : JS.stripSign (DecimalString.NilEmpty.string_of_uint u) =
               (1, DecimalString.NilEmpty.string_of_uint u))
    by (destruct u; [congruence | reflexivity ..]).
  split; unfold JS.parseInt.
  - rewrite E1, E2, stripHexPrefix_of_uint, (parseDigits_of_uint u Hu).
    f_equal; lia.
  - change (JS.trimStart (String "-" (DecimalString.NilEmpty.string_of_uint u)))
      with (String "-" (DecimalString.NilEmpty.string_of_uint u)).
    cbn [JS.stripSign].
    rewrite stripHexPrefix_of_uint, (parseDigits_of_uint u Hu).
    f_equal; lia.
Qed.

Lemma parseInt_string_of_int (d : Decimal.int) :
  JS.parseInt (DecimalString.NilZero.string_of_int d) = Some (Z.of_int d).
Proof.
  destruct d as [u | u];
    unfold DecimalString.NilZero.string_of_int, DecimalString.NilZero.string_of_uint;
    (destruct (Decimal.uint_eq_dec u Decimal.Nil) as [-> | Hu]; [reflexivity |]);
    destruct (parseInt_of_uint u Hu) as [Hpos Hneg];
    (destruct u; [congruence | ..]); first [exact Hpos | exact Hneg].
Qed.

Lemma parseInt_decimal (z : Z) : JS.parseInt (decimal z) = Some z.
Proof. unfold decimal. rewrite parseInt_string_of_int. f_equal. apply DecimalZ.of_to. Qed.

(** X1: no resolved configuration has a zero duration or an empty worker
    id: a variable that would give 0 or the empty string gives the default
    instead. *)
Theorem WORKER_CONFIG_never_zero (env : Env) :
  pollingInterval (WORKER_CONFIG env) <> 0 /\
  stalledJobTimeout (WORKER_CONFIG env) <> 0 /\
  circuitBreakerResetTimeout (WORKER_CONFIG env) <> 0 /\
  retryDelay (WORKER_CONFIG env) <> 0 /\
  id (WORKER_CONFIG env) <> "".
Proof.
  assert (Hn : forall a d, d <> 0 -> JS.orNumber a d <> 0).
  { intros [n|] d Hd; simpl; [| assumption].
    destruct (Z.eqb_spec n 0); assumption. }
  unfold WORKER_CONFIG; cbn [pollingInterval stalledJobTimeout
    circuitBreakerResetTimeout retryDelay id DEFAULT_CONFIG].
  repeat split; try (apply Hn; lia).
  destruct (env !! "WORKER_ID") as [[|c s]|]; simpl; discriminate.
Qed.

(** X2: a numeric variable written as the decimal notation of a non-zero
    integer between -2^53 and 2^53, the range in which a Number holds every
    integer exactly, resolves to that integer; negative integers are taken
    as they are: durations are not checked for their sign. *)
Theorem WORKER_CONFIG_reads_decimal (env : Env) name field dflt (z : Z) :
  In (name, field, dflt) numericVariables ->
  env !! name = Some (decimal z) -> z <> 0 ->
  - 2 ^ 53 <= z <= 2 ^ 53 ->
  JS.parseInt (decimal z) = Some z /\ field (WORKER_CONFIG env) = z.
Proof.
  intros Hin Hv Hz _. split; [apply parseInt_decimal |].
  rewrite (numericVariables_resolved env name field dflt Hin), Hv.
  apply orNumber_truthy; [apply parseInt_decimal | assumption].
Qed.

Lemma WORKER_CONFIG_reads_decimal_witness :
  JS.parseInt (decimal (-250)) = Some (-250) /\
  retryDelay (WORKER_CONFIG (<["RETRY_DELAY" := decimal (-250)]> ∅)) = -250.
Proof.
  apply (WORKER_CONFIG_reads_decimal
           (<["RETRY_DELAY" := decimal (-250)]> ∅) "RETRY_DELAY" retryDelay 15000).
  - simpl; tauto.
  - reflexivity.
  - lia.
  - lia.
Defined.

(** X3: a numeric variable whose value starts with a character that is
    neither white space, nor a sign, nor a decimal digit resolves to its
    documented default, whatever follows that character. *)
Theorem WORKER_CONFIG_rejects_non_numbers
    (env : Env) name field dflt (c : ascii) (rest : string) :
  In (name, field, dflt) numericVariables ->
  env !! name = Some (String c rest) -> startsNoNumber c ->
  JS.parseInt (String c rest) = None /\ field (WORKER_CONFIG env) = dflt.
Proof.
  intros Hin Hv (Hws & Hminus & Hplus & Hdigit).
  assert (Hp : JS.parseInt (String c rest) = None).
  { unfold JS.parseInt. cbn [JS.trimStart]. rewrite Hws.
    assert (Hs : JS.stripSign (String c rest) = (1, String c rest)).
    { unfold JS.stripSign.
      destruct c as [[] [] [] [] [] [] [] []]; try reflexivity; congruence. }
    rewrite Hs.
    assert (Hx : JS.stripHexPrefix (String c rest) = (10, String c rest)).
    { unfold JS.stripHexPrefix.
      destruct c as [[] [] [] [] [] [] [] []]; try reflexivity;
        vm_compute in Hdigit; discriminate. }
    rewrite Hx. cbn [JS.parseDigits]. now rewrite Hdigit. }
  split; [exact Hp |].
  rewrite (numericVariables_resolved env name field dflt Hin), Hv.
  apply (orNumber_falsy (Some (String c rest))). now left.
Qed.

Lemma WORKER_CONFIG_rejects_non_numbers_witness :
  JS.parseInt "ms1500" = None /\
  pollingInterval (WORKER_CONFIG (<["POLLING_INTERVAL" := "ms1500"]> ∅)) = 15000.
Proof.
  apply (WORKER_CONFIG_rejects_non_numbers
           (<["POLLING_INTERVAL" := "ms1500"]> ∅) "POLLING_INTERVAL"
           pollingInterval 15000 "m" "s1500").
  - simpl; tauto.
  - reflexivity.
  - repeat split; discriminate || reflexivity.
Defined.

(** ** The wrapper *)

(** X4: whatever the callback throws, [safeSupabaseCall] throws an instance
    of [WorkerError]: a [CircuitBreakerError], a [SupabaseError], or the
    [WorkerError] with code [UNKNOWN_ERROR]; and it throws only when the
    callback did. *)
Theorem safeSupabaseCall_throws_within_taxonomy {T} (callback : Async T) (e : Thrown) :
  Async.completion (safeSupabaseCall callback) = Rejected e ->
  closedKind e /\
  (exists e0, Async.completion callback = Rejected e0) /\
  (instanceof e CircuitBreakerErrorClass = true \/
   instanceof e SupabaseErrorClass = true \/
   e = WorkerError "Unexpected error during Supabase operation" "UNKNOWN_ERROR").
Proof.
  destruct (Async.completion callback) as [v | e0] eqn:E.
  - rewrite (safeSupabaseCall_resolved callback v E), E. discriminate.
  - rewrite (safeSupabaseCall_rejected callback e0 E). intros H.
    injection H as <-. split; [| split; [eauto |]].
    + destruct e0; reflexivity.
    + destruct e0; simpl; auto.
Qed.

Lemma safeSupabaseCall_throws_within_taxonomy_witness :
  closedKind (WorkerError "Unexpected error during Supabase operation" "UNKNOWN_ERROR").
Proof.
  apply (safeSupabaseCall_throws_within_taxonomy
           (Async.throw (Foreign "TypeError: fetch failed") : Async unit)).
  reflexivity.
Defined.

(** X5: wrapping a call twice completes as wrapping it once; the wrapper
    runs the callback once, before the one line at most that it logs. *)
Theorem safeSupabaseCall_idempotent {T} (callback : Async T) :
  Async.completion (safeSupabaseCall (safeSupabaseCall callback)) =
    Async.completion (safeSupabaseCall callback) /\
  exists logged,
    Async.effects (safeSupabaseCall callback) = Async.effects callback ++ logged /\
    (List.length logged <= 1)%nat.
Proof.
  split.
  - destruct callback as [t [v | e]]; [reflexivity | destruct e; reflexivity].
  - destruct callback as [t [v | e]]; unfold safeSupabaseCall; simpl.
    + exists []. rewrite app_nil_r. split; [reflexivity | simpl; lia].
    + destruct e; simpl; eexists; (split; [reflexivity | simpl; lia]).
Qed.

(** ** Which jobs are processed, and when the worker sleeps *)

(** X6: an iteration hands to [processJob] the first row returned by the
    claim, under this worker's id, and nothing else: no job when the store
    reports an error (even beside rows) or rejects, and never a second row
    of the same answer. *)
Theorem checkForPendingJobs_processes_first_row (config : WorkerConfig) (w : World) :
  processed (Async.effects (checkForPendingJobs config w)) =
    match claim_next_pending_job w with
    | Answer (Some (job :: _)) None => [(job, id config)]
    | _ => []
    end /\
  processed (Async.effects (iteration config w)) =
    processed (Async.effects (checkForPendingJobs config w)).
Proof.
  split.
  - unfold checkForPendingJobs. rewrite checkForPendingJobs_try_eq.
    destruct (claim_next_pending_job w) as [[[|job rest]|] [error|] | e];
      try reflexivity.
    destruct (processJob w job (id config)); reflexivity.
  - rewrite iteration_eq. cbn [Async.effects fst].
    induction (Async.effects (checkForPendingJobs config w)) as [|x t IH];
      [reflexivity |].
    destruct x; simpl; now rewrite ?IH.
Qed.

(** X7: a scan hands to [processJob] the row selected by the query, under
    this worker's id, and nothing else: no job when the bound is outside the
    range of [Date], when the store reports an error or when it rejects. *)
Theorem recoverStalledJobs_processes_selected_row (config : WorkerConfig) (w : World) :
  processed (Async.effects (recoverStalledJobs config w)) =
    if inDateRangeb (now w - stalledJobTimeout config) then
      match select_fault w with
      | None =>
          map (fun job => (job, id config))
            (stalledQuery (now w - stalledJobTimeout config) (import_jobs w))
      | Some _ => []
      end
    else [].
Proof.
  unfold recoverStalledJobs, recoverStalledJobs_try, toISOString, selectStalled,
    inDateRangeb.
  destruct ((_ <=? _) && (_ <=? _)); [| reflexivity].
  destruct (select_fault w) as [[error | e] |]; try reflexivity.
  destruct (stalledQuery_cases (now w - stalledJobTimeout config) (import_jobs w))
    as [E | [j E]]; simpl; rewrite E; [reflexivity |].
  simpl. destruct (processJob w j (id config)); reflexivity.
Qed.

(** X8: what the worker sleeps.  An iteration whose claim and processing go
    through sleeps [pollingInterval] only, also after a processed job; one
    that fails sleeps [retryDelay] first.  A scan sleeps only when it
    fails, and then [retryDelay]. *)
Theorem sleeps_of_iteration_and_scan (config : WorkerConfig) (w : World) :
  sleeps (Async.effects (iteration config w)) =
    match Async.completion (checkForPendingJobs_try config w) with
    | Resolved _ => [pollingInterval config]
    | Rejected _ => [retryDelay config; pollingInterval config]
    end /\
  sleeps (Async.effects (recoverStalledJobs config w)) =
    match Async.completion (recoverStalledJobs_try config w) with
    | Resolved _ => []
    | Rejected _ => [retryDelay config]
    end.
Proof.
  split.
  - destruct (Async.completion (checkForPendingJobs_try config w)) as [[] | e] eqn:E.
    + rewrite iteration_eq. cbn [Async.effects fst].
      unfold checkForPendingJobs. rewrite (try_catch_resolved _ _ tt E).
      fold (Async.effects (checkForPendingJobs_try config w)).
      now rewrite sleeps_app, checkForPendingJobs_try_no_sleep.
    + now apply iteration_failure_sleeps with e.
  - assert (Hno : sleeps (Async.effects (recoverStalledJobs_try config w)) = []).
    { unfold recoverStalledJobs_try, toISOString, selectStalled.
      destruct ((_ <=? _) && (_ <=? _)); [| reflexivity].
      destruct (select_fault w) as [[error | e] |]; try reflexivity.
      simpl. destruct (stalledQuery _ _) as [|j rest]; [reflexivity |].
      simpl. destruct (processJob w j (id config)); reflexivity. }
    destruct (Async.completion (recoverStalledJobs_try config w)) as [[] | e] eqn:E.
    + unfold recoverStalledJobs. rewrite (try_catch_resolved _ _ tt E).
      exact Hno.
    + rewrite (recoverStalledJobs_caught config w e E), sleeps_app, Hno.
      reflexivity.
Qed.

(** X9: when [now - stalledJobTimeout] is outside the range of [Date], the
    scan fails before asking the store anything: it logs the [RangeError]
    and sleeps [retryDelay]. *)
Theorem recoverStalledJobs_invalid_date (config : WorkerConfig) (w : World) :
  ~ inDateRange (now w - stalledJobTimeout config) ->
  recoverStalledJobs config w =
    ([ Log (ErrorRecoveringStalledJobs (Foreign "RangeError: Invalid time value"));
       Sleep (retryDelay config) ],
     Resolved tt).
Proof.
  intros H. unfold recoverStalledJobs, recoverStalledJobs_try, toISOString.
  destruct (Z.leb_spec (-8640000000000000) (now w - stalledJobTimeout config));
    [destruct (Z.leb_spec (now w - stalledJobTimeout config) 8640000000000000) |];
    try reflexivity.
  exfalso. apply H. split; assumption.
Qed.

Lemma recoverStalledJobs_invalid_date_witness :
  recoverStalledJobs
    (WORKER_CONFIG (<["STALLED_JOB_TIMEOUT" := "9000000000000000"]> ∅)) sampleWorld =
    ([ Log (ErrorRecoveringStalledJobs (Foreign "RangeError: Invalid time value"));
       Sleep 15000 ],
     Resolved tt).
Proof.
  assert (H : ~ inDateRange
                 (now sampleWorld -
                  stalledJobTimeout
                    (WORKER_CONFIG (<["STALLED_JOB_TIMEOUT" := "9000000000000000"]> ∅)))).
  { unfold inDateRange. vm_compute. intros [H _]. apply H. reflexivity. }
  exact (recoverStalledJobs_invalid_date
           (WORKER_CONFIG (<["STALLED_JOB_TIMEOUT" := "9000000000000000"]> ∅))
           sampleWorld H).
Defined.

(** ** The selection of the scan *)

Lemma insert_by_created_at_map (g : Job.t -> Job.t) (j : Job.t) (rows : list Job.t) :
  (forall x, Job.created_at (g x) = Job.created_at x) ->
  Query.insert_by_created_at (g j) (map g rows) =
    map g (Query.insert_by_created_at j rows).
Proof.
  intros Hg. induction rows as [|r rows IH]; [reflexivity |].
  simpl. rewrite !Hg.
  destruct (Job.created_at j <=? Job.created_at r); simpl; [reflexivity |].
  now rewrite IH.
Qed.

Lemma filter_map_same {A} (f : A -> bool) (g : A -> A) (l : list A) :
  (forall x, f (g x) = f x) ->
  List.filter f (map g l) = map g (List.filter f l).
Proof.
  intros Hg. induction l as [|x l IH]; [reflexivity |].
  simpl. rewrite Hg. destruct (f x); simpl; now rewrite IH.
Qed.

(** X10: the selection does not look at who holds a row: with other
    holders written in the [worker_id] column, the scan selects the same
    row, be it held by this very worker. *)
Theorem stalledQuery_ignores_worker_id
    (holder : Job.t -> option string) (bound : Z) (rows : list Job.t) :
  stalledQuery bound (map (withWorker holder) rows) =
    map (withWorker holder) (stalledQuery bound rows).
Proof.
  unfold stalledQuery, Query.limit, Query.lt_updated_at, Query.eq_status.
  rewrite !filter_map_same by reflexivity.
  rewrite <- firstn_map. f_equal.
  induction (List.filter _ (List.filter _ rows)) as [|j l IH]; [reflexivity |].
  cbn [map Query.order_created_at fold_right].
  fold (Query.order_created_at (map (withWorker holder) l)).
  fold (Query.order_created_at l).
  rewrite IH. now apply insert_by_created_at_map.
Qed.

(** X11: a row selected at some bound is not lost at a later one: over the
    same rows, a scan with a later clock or a shorter timeout selects a
    row too, and one created no later. *)
Theorem stalledQuery_later_bound (bound bound' : Z) (rows : list Job.t) (j : Job.t) :
  bound <= bound' ->
  stalledQuery bound rows = [j] ->
  exists j', stalledQuery bound' rows = [j'] /\
             Job.created_at j' <= Job.created_at j.
Proof.
  intros Hb E.
  destruct (stalledQuery_oldest bound rows j E) as (Hin & [Hs Hu] & _).
  assert (Hst : stalled bound' j) by (split; [assumption | lia]).
  destruct (stalledQuery_finds bound' rows j Hin Hst) as [j' E'].
  exists j'. split; [exact E' |].
  destruct (stalledQuery_oldest bound' rows j' E') as (_ & _ & Hmin).
  now apply Hmin.
Qed.

Lemma stalledQuery_later_bound_witness :
  exists j', stalledQuery 940001 sampleRows = [j'] /\ Job.created_at j' <= 200.
Proof.
  apply (stalledQuery_later_bound 940000 940001 sampleRows
           (sampleJob "one-ms-older" processing 200 939999)).
  - lia.
  - reflexivity.
Defined.

(** ** Whole runs *)

Lemma started_running (config : WorkerConfig) :
  started config = running config (output (started config)).
Proof. reflexivity. Qed.

Lemma act_running_own (config : WorkerConfig) (a : Activity) (o : list Effect) :
  ownActivity a ->
  act config a (running config o) = running config (o ++ activityEffects config a).
Proof.
  intros Ha. rewrite (act_own config a _ Ha); [| reflexivity].
  now rewrite emitted_alive.
Qed.

Lemma act_running_event (config : WorkerConfig) ev arg (o : list Effect) :
  act config (Emit ev arg) (running config o) =
    {| listeners := listeners (started config);
       intervals := intervals (started config);
       exitCode := Some (exitCodeFor ev);
       output := o ++ [Log (lastLine ev arg); Exit (exitCodeFor ev)] |}.
Proof. destruct ev; cbn; now rewrite <- app_assoc. Qed.

(** A run of the started process: the activities before the first event
    take effect, the first event ends the process, the rest does nothing. *)
Lemma run_running (config : WorkerConfig) (schedule : list Activity) (o : list Effect) :
  run config schedule (running config o) =
    {| listeners := listeners (started config);
       intervals := intervals (started config);
       exitCode := option_map (fun e => exitCodeFor (fst e)) (firstEvent schedule);
       output :=
         o ++ flat_map (activityEffects config) (beforeFirstEvent schedule)
           ++ match firstEvent schedule with
              | Some (ev, arg) => [Log (lastLine ev arg); Exit (exitCodeFor ev)]
              | None => []
              end |}.
Proof.
  revert o. induction schedule as [|a schedule IH]; intros o.
  - simpl. now rewrite app_nil_r.
  - rewrite run_cons. destruct a as [w | w | ev arg].
    + rewrite act_running_own by exact I. rewrite IH.
      cbn [firstEvent beforeFirstEvent flat_map]. now rewrite <- !app_assoc.
    + rewrite act_running_own by exact I. rewrite IH.
      cbn [firstEvent beforeFirstEvent flat_map]. now rewrite <- !app_assoc.
    + rewrite act_running_event.
      rewrite run_exited with (c := exitCodeFor ev); reflexivity.
Qed.

(** X12: the exit code of a started worker is decided by the first event
    delivered to it: none as long as no event is delivered, 0 for SIGTERM
    and SIGINT, 1 for an uncaught exception and an unhandled rejection.
    Whatever follows that event, further events included, changes nothing,
    and the recovery timer is never cleared. *)
Theorem started_worker_exit_code (config : WorkerConfig) (schedule : list Activity) :
  exitCode (run config schedule (started config)) =
    option_map (fun e => exitCodeFor (fst e)) (firstEvent schedule) /\
  intervals (run config schedule (started config)) =
    [(stalledJobsInterval, stalledJobTimeout config)] /\
  forall ev arg later,
    run config (schedule ++ Emit ev arg :: later) (started config) =
    run config (schedule ++ [Emit ev arg]) (started config).
Proof.
  rewrite started_running, run_running.
  split; [reflexivity |]. split; [reflexivity |].
  intros ev arg later.
  replace (schedule ++ Emit ev arg :: later)
    with ((schedule ++ [Emit ev arg]) ++ later) by now rewrite <- app_assoc.
  rewrite (run_app config (schedule ++ [Emit ev arg]) later).
  assert (Hex : exists c,
            exitCode (run config (schedule ++ [Emit ev arg]) (running config
              (output (started config)))) = Some c).
  { rewrite run_running. cbn [exitCode].
    induction schedule as [|[w | w | ev' arg'] schedule IH]; simpl; eauto. }
  destruct Hex as [c Hc]. now apply run_exited with c.
Qed.

(** Proves a property of every element of an explicit list of effects. *)
Ltac each_effect :=
  let H := fresh in
  simpl; intros H; decompose [or] H; try contradiction; subst; simpl; auto.

(** Every effect of an activity is one of the live branches and bears the
    worker id. *)
Lemma activityEffects_live (config : WorkerConfig) (a : Activity) (eff : Effect) :
  In eff (activityEffects config a) ->
  deadEffect eff = false /\ underIdentity (id config) eff.
Proof.
  destruct a as [w | w | ev arg]; cbn [activityEffects].
  - rewrite iteration_eq. cbn [Async.effects fst].
    unfold checkForPendingJobs. rewrite checkForPendingJobs_try_eq.
    destruct (claim_next_pending_job w) as [[[|job rest]|] [error|] | e];
      try solve [each_effect].
    destruct (processJob w job (id config)); each_effect.
  - rewrite stalledJobsTick_eq.
    unfold recoverStalledJobs, recoverStalledJobs_try, toISOString, selectStalled.
    destruct ((_ <=? _) && (_ <=? _)); [| each_effect].
    destruct (select_fault w) as [[error | e] |]; try solve [each_effect].
    simpl. destruct (stalledQuery _ _) as [|job rest]; [each_effect |].
    simpl. destruct (processJob w job (id config)); each_effect.
  - intros [].
Qed.

(** Where an effect of a run comes from. *)
Lemma worker_output_cases (env : Env) (schedule : list Activity) (eff : Effect) :
  In eff (output (worker env schedule)) ->
  In eff (output (main env)) \/
  (exists a, In eff (activityEffects (WORKER_CONFIG env) a)) \/
  (exists ev arg, eff = Log (lastLine ev arg) \/ eff = Exit (exitCodeFor ev)).
Proof.
  destruct (configured env) eqn:Hc.
  - unfold worker. rewrite (main_configured env Hc), started_running, run_running.
    cbn [output running]. rewrite !in_app_iff, in_flat_map.
    intros [H | [(a & _ & H) | H]]; [now left | right; left; eauto |].
    right; right. destruct (firstEvent schedule) as [[ev arg]|]; [| destruct H].
    exists ev, arg. destruct H as [<- | [<- | []]]; auto.
  - unfold worker. assert (E : exitCode (main env) = Some 1)
      by now rewrite (main_unconfigured env Hc).
    rewrite (run_exited _ schedule _ 1 E). now left.
Qed.

Lemma main_output_live (env : Env) (eff : Effect) :
  In eff (output (main env)) ->
  deadEffect eff = false /\ underIdentity (id (WORKER_CONFIG env)) eff.
Proof.
  destruct (configured env) eqn:Hc.
  - rewrite (main_configured env Hc). each_effect.
  - rewrite (main_unconfigured env Hc). each_effect.
Qed.

(** X13: no run, whatever the environment, the store, [processJob] and the
    events do, enters the classification of the main loop (lines 193-205),
    the [catch] of the timer callback (line 179), the [catch] around the
    loop (line 209) or [safeSupabaseCall], and none calls [clearInterval]. *)
Theorem worker_never_enters_dead_branches
    (env : Env) (schedule : list Activity) (eff : Effect) :
  In eff (output (worker env schedule)) -> deadEffect eff = false.
Proof.
  intros H. apply worker_output_cases in H.
  destruct H as [H | [(a & H) | (ev & arg & [-> | ->])]].
  - now apply main_output_live in H.
  - now apply activityEffects_live in H.
  - now destruct ev.
  - reflexivity.
Qed.

Lemma worker_never_enters_dead_branches_witness :
  deadEffect (Log (ErrorCheckingForPendingJobs (CircuitBreakerError "open"))) = false.
Proof.
  apply (worker_never_enters_dead_branches env_long_breaker
           [Poll (worldStoreThrows (CircuitBreakerError "open"))]).
  vm_compute. tauto.
Defined.

(** X14: in every run, each call to the store's [rpc] is
    [claim_next_pending_job] with the configured worker id, and each job
    handed to [processJob], claimed or recovered, is handed over with that
    same id. *)
Theorem worker_acts_under_its_id
    (env : Env) (schedule : list Activity) (eff : Effect) :
  In eff (output (worker env schedule)) ->
  underIdentity (id (WORKER_CONFIG env)) eff.
Proof.
  intros H. apply worker_output_cases in H.
  destruct H as [H | [(a & H) | (ev & arg & [-> | ->])]].
  - now apply main_output_live in H.
  - now apply activityEffects_live in H.
  - exact I.
  - exact I.
Qed.

Lemma worker_acts_under_its_id_witness :
  underIdentity (id (WORKER_CONFIG env_long_breaker))
    (ProcessJob (sampleJob "one-ms-older" processing 200 939999) "worker1").
Proof.
  apply (worker_acts_under_its_id env_long_breaker [Tick sampleWorld]).
  vm_compute. tauto.
Defined.

(** X15: when the store URL or the key is missing or empty, the process
    logs which of the two it has and exits with code 1; no listener is
    registered, no timer set, and nothing scheduled afterwards has any
    effect. *)
Theorem worker_without_credentials (env : Env) (schedule : list Activity) :
  configured env = false ->
  worker env schedule =
    {| listeners := []; intervals := []; exitCode := Some 1;
       output :=
         [ Log (MissingEnvironment
                  (negb (JS.notString (env !! "NEXT_PUBLIC_SUPABASE_URL")))
                  (negb (JS.notString (env !! "SUPABASE_SERVICE_ROLE_KEY"))));
           Exit 1 ] |}.
Proof.
  intros Hc. unfold worker.
  rewrite (run_exited _ schedule _ 1); rewrite (main_unconfigured env Hc);
    reflexivity.
Qed.

Lemma worker_without_credentials_witness :
  output
    (worker (<["SUPABASE_SERVICE_ROLE_KEY" := "service-role-key"]>
               (<["NEXT_PUBLIC_SUPABASE_URL" := ""]> ∅))
       [Poll sampleWorld; Emit SIGTERM None]) =
    [Log (MissingEnvironment false true); Exit 1].
Proof.
  rewrite (worker_without_credentials
             (<["SUPABASE_SERVICE_ROLE_KEY" := "service-role-key"]>
                (<["NEXT_PUBLIC_SUPABASE_URL" := ""]> ∅))
             [Poll sampleWorld; Emit SIGTERM None]).
  - reflexivity.
  - reflexivity.
Defined.
